(** * Traffic-signal controller of [app3.py]

    A shallow embedding of the signal controller of the Flask application:
    the shared dictionaries [traffic_data] and [system_settings], the timing
    calculator [calculate_red_time], one tick [update_traffic_lights], the
    observation write of [detect_objects] and the configuration endpoint
    [update_settings].

    Python integers are unbounded and are modelled by [Z].  The lane weights
    are sums of the constants 0.5, 1, 2, 3 and are only ever compared with
    [>]; they are modelled by exact rationals [Q].  The dictionary
    [traffic_data] has the four fixed keys lane1..lane4, inserted in that
    order and never removed, so iteration over it always visits
    lane1, lane2, lane3, lane4.  The serial writes of [send_to_arduino] do
    not touch either dictionary and are left out. *)

From Stdlib Require Import ZArith QArith Bool List Sorted String Ascii Lia Lqa.
Import ListNotations.

Set Warnings "-register-all".

Local Open Scope Z_scope.

(** ** Data model *)

Inductive Light : Type := Red | Yellow | Green.

Definition light_eqb (a b : Light) : bool :=
  match a, b with
  | Red, Red | Yellow, Yellow | Green, Green => true
  | _, _ => false
  end.

(** One entry of [traffic_data]. *)
Record Lane : Type := mkLane {
  emergency : bool;
  remaining_time : Z;
  light : Light;
  vehicle_count : nat;
  weight : Q;
  next_state : option Light
}.

Inductive LaneId : Type := lane1 | lane2 | lane3 | lane4.

Definition lanes_order : list LaneId := [lane1; lane2; lane3; lane4].

(** [lanes_order.index(lane_id)] *)
Definition lane_index (i : LaneId) : Z :=
  match i with lane1 => 0 | lane2 => 1 | lane3 => 2 | lane4 => 3 end.

(** [lanes_order[n]] for an index already reduced modulo 4. *)
Definition lane_at (n : Z) : LaneId :=
  if n =? 0 then lane1 else if n =? 1 then lane2
  else if n =? 2 then lane3 else lane4.

Definition laneid_eqb (a b : LaneId) : bool := lane_index a =? lane_index b.

Record TrafficData : Type := mkTraffic {
  td_lane1 : Lane;
  td_lane2 : Lane;
  td_lane3 : Lane;
  td_lane4 : Lane
}.

(** JSON values as they arrive in a request body.  Numbers with a fraction
    are floating point in Python and are outside this model. *)
Inductive jvalue : Type :=
| JNull
| JBool (b : bool)
| JNum (z : Z)
| JStr (s : string)
| JArr (items : list jvalue)
| JObj (fields : list (string * jvalue)).

Record Settings : Type := mkSettings {
  mode : jvalue;
  cycle_duration : Z;
  yellow_duration : Z;
  weight_threshold : Q
}.

Record State : Type := mkState {
  traffic_data : TrafficData;
  system_settings : Settings
}.

Definition get_lane (i : LaneId) (s : State) : Lane :=
  match i with
  | lane1 => td_lane1 (traffic_data s)
  | lane2 => td_lane2 (traffic_data s)
  | lane3 => td_lane3 (traffic_data s)
  | lane4 => td_lane4 (traffic_data s)
  end.

Definition set_lane (i : LaneId) (l : Lane) (s : State) : State :=
  let td := traffic_data s in
  mkState
    match i with
    | lane1 => mkTraffic l (td_lane2 td) (td_lane3 td) (td_lane4 td)
    | lane2 => mkTraffic (td_lane1 td) l (td_lane3 td) (td_lane4 td)
    | lane3 => mkTraffic (td_lane1 td) (td_lane2 td) l (td_lane4 td)
    | lane4 => mkTraffic (td_lane1 td) (td_lane2 td) (td_lane3 td) l
    end
    (system_settings s).

(** Field writes on a lane dictionary. *)
Definition with_time (t : Z) (l : Lane) : Lane :=
  mkLane (emergency l) t (light l) (vehicle_count l) (weight l) (next_state l).

Definition with_next (n : option Light) (l : Lane) : Lane :=
  mkLane (emergency l) (remaining_time l) (light l) (vehicle_count l)
         (weight l) n.

(** [lane.update({"light": c, "next_state": n, "remaining_time": t})] *)
Definition with_signal (c : Light) (n : option Light) (t : Z) (l : Lane) : Lane :=
  mkLane (emergency l) t c (vehicle_count l) (weight l) n.

(** [lane.update({"emergency": e, "vehicle_count": c, "weight": w})] *)
Definition with_observation (e : bool) (c : nat) (w : Q) (l : Lane) : Lane :=
  mkLane e (remaining_time l) (light l) c w (next_state l).

(** The module-level initial values. *)
Definition initial_traffic_data : TrafficData :=
  mkTraffic (mkLane false 45 Red 0 0%Q None)
            (mkLane false 30 Red 0 0%Q None)
            (mkLane false 15 Red 0 0%Q None)
            (mkLane false 0 Green 0 0%Q None).

Definition initial_settings : Settings :=
  mkSettings (JStr "auto") 15 3 6%Q.

Definition initial_state : State := mkState initial_traffic_data initial_settings.

(** ** calculate_red_time *)

(** [next((k for k, v in traffic_data.items() if v["light"] == "green"), None)].
    The source first picks the green dictionary and then looks its key up by
    dictionary equality; the first dictionary equal to the first green one is
    that very entry, so both steps yield the first green key. *)
Definition current_green (s : State) : option LaneId :=
  find (fun i => light_eqb (light (get_lane i s)) Green) lanes_order.

Definition calculate_red_time (s : State) (lane_id : LaneId) : Z :=
  match current_green s with
  | None => 0
  | Some green_lane_id =>
    let green_lane := get_lane green_lane_id s in
    let green_idx := lane_index green_lane_id in
    let current_idx := lane_index lane_id in
    let position := (current_idx - green_idx) mod 4 in
    let Y := yellow_duration (system_settings s) in
    let C := cycle_duration (system_settings s) in
    if position =? 0 then 0
    else if position =? 1 then remaining_time green_lane + Y
    else if position =? 2 then remaining_time green_lane + Y + C
    else remaining_time green_lane + Y + C * 2
  end.

(** ** update_traffic_lights *)

(** A [for lane_id, lane in traffic_data.items()] loop whose body rewrites
    only the entry it visits; the body sees the writes of earlier
    iterations. *)
Definition lane_loop (body : State -> LaneId -> Lane) (s : State) : State :=
  fold_left (fun st i => set_lane i (body st i) st) lanes_order s.

(** First loop: decrement every timer, recompute an elapsed red one. *)
Definition decrement_body (st : State) (lane_id : LaneId) : Lane :=
  let lane := get_lane lane_id st in
  if remaining_time lane >? 0 then with_time (remaining_time lane - 1) lane
  else if light_eqb (light lane) Red
       then with_time (calculate_red_time st lane_id) lane
       else lane.

(** Second loop: apply a pending transition whose timer has elapsed.  The
    red branch calls [calculate_red_time] after [light] and [next_state] of
    the entry have been written. *)
Definition transition_body (st : State) (lane_id : LaneId) : Lane :=
  let lane := get_lane lane_id st in
  if remaining_time lane <=? 0 then
    match next_state lane with
    | Some ns =>
      let lane' := with_signal ns None (remaining_time lane) lane in
      match ns with
      | Green => with_time (cycle_duration (system_settings st)) lane'
      | Yellow => with_time (yellow_duration (system_settings st)) lane'
      | Red =>
        with_time (calculate_red_time (set_lane lane_id lane' st) lane_id) lane'
      end
    | None => lane
    end
  else lane.

(** [for lane_id, lane in ...: if lane["emergency"]: ...; break] *)
Definition emergency_lane (s : State) : option LaneId :=
  find (fun i => emergency (get_lane i s)) lanes_order.

(** The loop shared by the emergency and the weight branch: the chosen lane
    is pushed toward green, every other lane toward red. *)
Definition priority_body (target : LaneId) (st : State) (lane_id : LaneId) : Lane :=
  let lane := get_lane lane_id st in
  let Y := yellow_duration (system_settings st) in
  if laneid_eqb lane_id target then
    match light lane with
    | Green => lane
    | Red => with_signal Yellow (Some Green) Y lane
    | Yellow => with_next (Some Green) lane
    end
  else
    match light lane with
    | Green => with_signal Yellow (Some Red) Y lane
    | Yellow =>
      match next_state lane with
      | Some Red => lane
      | _ => with_next (Some Red) lane
      end
    | Red => lane
    end.

Definition Qltb (a b : Q) : bool := negb (Qle_bool b a).

(** [{k: v for k, v in traffic_data.items() if v["weight"] > threshold}] *)
Definition high_weight_lanes (s : State) : list LaneId :=
  filter (fun i => Qltb (weight_threshold (system_settings s))
                        (weight (get_lane i s)))
         lanes_order.

(** [max(items, key=...)]: the running maximum is replaced only by a
    strictly larger key, so the first maximal item is returned. *)
Definition py_max (key : LaneId -> Q) (first : LaneId) (rest : list LaneId) : LaneId :=
  fold_left (fun best x => if Qltb (key best) (key x) then x else best)
            rest first.

Definition max_lane (s : State) : option LaneId :=
  match high_weight_lanes s with
  | [] => None
  | x :: rest => Some (py_max (fun i => weight (get_lane i s)) x rest)
  end.

(** [any(lane["light"] == "yellow" for lane in traffic_data.values())] *)
Definition any_yellow (s : State) : bool :=
  existsb (fun i => light_eqb (light (get_lane i s)) Yellow) lanes_order.

(** The last part of the function, reached without emergency and without a
    lane above the weight threshold. *)
Definition normal_operation (s : State) : State :=
  let Y := yellow_duration (system_settings s) in
  if any_yellow s then s
  else
    match current_green s with
    | Some cg =>
      if remaining_time (get_lane cg s) >? 0 then s
      else
        let s1 := set_lane cg (with_signal Yellow (Some Red) Y (get_lane cg s)) s in
        let next_index := (lane_index cg + 1) mod 4 in
        let next_green := lane_at next_index in
        set_lane next_green
                 (with_signal Yellow (Some Green) Y (get_lane next_green s1)) s1
    | None =>
      set_lane lane4 (with_signal Yellow (Some Green) Y (get_lane lane4 s)) s
    end.

Definition decrement_timers : State -> State := lane_loop decrement_body.
Definition handle_transitions : State -> State := lane_loop transition_body.
Definition force_priority (target : LaneId) : State -> State :=
  lane_loop (priority_body target).

(** The state on which the three policies are evaluated. *)
Definition after_timers (s : State) : State :=
  handle_transitions (decrement_timers s).

(** The three policies in their order of precedence; each of the first
    two ends in [return]. *)
Definition evaluate_priority (s2 : State) : State :=
  match emergency_lane s2 with
  | Some e => force_priority e s2
  | None =>
    match max_lane s2 with
    | Some m => force_priority m s2
    | None => normal_operation s2
    end
  end.

Definition update_traffic_lights (s : State) : State :=
  evaluate_priority (after_timers s).

(** ** detect_objects: the write of one observation *)

Definition observe (camera : LaneId) (e : bool) (count : nat) (w : Q)
           (s : State) : State :=
  set_lane camera (with_observation e count w (get_lane camera s)) s.

(** ** update_settings *)

Inductive PyError : Type :=
| BadRequest       (* [request.get_json()] fails *)
| AttributeError   (* [data] has no [get] *)
| ValueError       (* [int] of a string that is no integer literal *)
| TypeError.       (* [int] of null, a list or a dictionary *)

(** The body of the [try] block runs on the shared dictionaries and may
    raise after some writes have been made; the writes stay. *)
Definition Handler (A : Type) : Type := State -> State * (A + PyError).

Definition ret {A} (a : A) : Handler A := fun s => (s, inl a).
Definition raise {A} (e : PyError) : Handler A := fun s => (s, inr e).
Definition bind {A B} (m : Handler A) (k : A -> Handler B) : Handler B :=
  fun s => match m s with
           | (s', inl a) => k a s'
           | (s', inr e) => (s', inr e)
           end.
Definition gets {A} (f : State -> A) : Handler A := fun s => (s, inl (f s)).
Definition modify (f : State -> State) : Handler unit := fun s => (f s, inl tt).
Definition lift {A} (r : A + PyError) : Handler A := fun s => (s, r).

Notation "x <- m ;; k" := (bind m (fun x => k))
  (at level 61, m at next level, right associativity).
Notation "m ;;; k" := (bind m (fun _ => k))
  (at level 61, right associativity).

(** *** [int(...)] on a JSON value *)

(** The white space [int] skips around an ASCII literal: space, tab, line
    feed, vertical tab, form feed and carriage return. *)
Definition is_space (c : ascii) : bool :=
  let n := nat_of_ascii c in
  ((n =? 32) || ((9 <=? n) && (n <=? 13)))%nat.

Definition digit_value (c : ascii) : option Z :=
  let n := nat_of_ascii c in
  if ((48 <=? n) && (n <=? 57))%nat then Some (Z.of_nat n - 48) else None.

Fixpoint drop_spaces (l : list ascii) : list ascii :=
  match l with
  | c :: r => if is_space c then drop_spaces r else l
  | [] => []
  end.

Definition strip (l : list ascii) : list ascii :=
  rev (drop_spaces (rev (drop_spaces l))).

(** Decimal digits, single underscores allowed between two digits. *)
Fixpoint parse_digits (acc : Z) (after_digit : bool) (l : list ascii) : option Z :=
  match l with
  | [] => if after_digit then Some acc else None
  | c :: r =>
    match digit_value c with
    | Some d => parse_digits (acc * 10 + d) true r
    | None =>
      if (Ascii.eqb c "_" && after_digit)%bool then parse_digits acc false r
      else None
    end
  end.

(** [int(s)] for an ASCII string: surrounding white space, an optional
    sign, decimal digits.  Strings with characters outside ASCII (other
    digits, other white space) and literals of more than 4300 digits,
    which recent interpreters refuse, are outside this model; the
    properties of the configuration endpoint that depend on the conversion
    of a string are stated for ASCII strings of at most 4300 digits. *)
Definition int_of_string (s : string) : option Z :=
  match strip (list_ascii_of_string s) with
  | "-"%char :: r => option_map Z.opp (parse_digits 0 false r)
  | "+"%char :: r => parse_digits 0 false r
  | r => parse_digits 0 false r
  end.

Definition py_int (v : jvalue) : Z + PyError :=
  match v with
  | JNum z => inl z
  | JBool b => inl (if b then 1 else 0)
  | JStr s => match int_of_string s with
              | Some z => inl z
              | None => inr ValueError
              end
  | JNull | JArr _ | JObj _ => inr TypeError
  end.

(** [data.get(key, default)] on a parsed JSON object (one pair per key). *)
Fixpoint dict_get (fields : list (string * jvalue)) (key : string)
         (default : jvalue) : jvalue :=
  match fields with
  | [] => default
  | (k, v) :: r => if String.eqb k key then v else dict_get r key default
  end.

(** The attribute lookup [data.get]: only a dictionary has it. *)
Definition dict_of (data : jvalue) : (list (string * jvalue)) + PyError :=
  match data with
  | JObj fields => inl fields
  | _ => inr AttributeError
  end.

Definition set_mode (m : jvalue) (s : State) : State :=
  let st := system_settings s in
  mkState (traffic_data s)
          (mkSettings m (cycle_duration st) (yellow_duration st)
                      (weight_threshold st)).

Definition set_cycle_duration (c : Z) (s : State) : State :=
  let st := system_settings s in
  mkState (traffic_data s)
          (mkSettings (mode st) c (yellow_duration st) (weight_threshold st)).

Definition set_yellow_duration (y : Z) (s : State) : State :=
  let st := system_settings s in
  mkState (traffic_data s)
          (mkSettings (mode st) (cycle_duration st) y (weight_threshold st)).

(** [next((k for ... if v["light"] == "green"), "lane4")] *)
Definition reset_anchor (s : State) : LaneId :=
  match current_green s with
  | Some k => k
  | None => lane4
  end.

(** The timer reset loop; [current_idx] is fixed before the loop starts. *)
Definition reset_body (current_idx : Z) (st : State) (lane_id : LaneId) : Lane :=
  let position := (lane_index lane_id - current_idx) mod 4 in
  let C := cycle_duration (system_settings st) in
  if position =? 0
  then with_signal Green None C (get_lane lane_id st)
  else with_signal Red None (position * C) (get_lane lane_id st).

Definition reset_timers (s : State) : State :=
  lane_loop (reset_body (lane_index (reset_anchor s))) s.

(** The request body: [None] when [request.get_json()] raises. *)
Definition get_json (request : option jvalue) : Handler jvalue :=
  match request with
  | Some data => ret data
  | None => raise BadRequest
  end.

Definition update_settings_body (request : option jvalue) : Handler unit :=
  data <- get_json request ;;
  fields <- lift (dict_of data) ;;
  old_mode <- gets (fun s => mode (system_settings s)) ;;
  modify (set_mode (dict_get fields "mode" old_mode)) ;;;
  old_cycle <- gets (fun s => cycle_duration (system_settings s)) ;;
  c <- lift (py_int (dict_get fields "duration" (JNum old_cycle))) ;;
  modify (set_cycle_duration c) ;;;
  old_yellow <- gets (fun s => yellow_duration (system_settings s)) ;;
  y <- lift (py_int (dict_get fields "yellow_duration" (JNum old_yellow))) ;;
  modify (set_yellow_duration y) ;;;
  modify reset_timers.

(** The JSON answer: [{"success": True}] or
    [{"success": False, "error": str(e)}]. *)
Record Response : Type := mkResponse {
  success : bool;
  error : option PyError
}.

Definition update_settings (request : option jvalue) (s : State)
  : State * Response :=
  match update_settings_body request s with
  | (s', inl _) => (s', mkResponse true None)
  | (s', inr e) => (s', mkResponse false (Some e))
  end.

(** ** Runs of the controller *)

(** The states reached when the calls run one after another: a tick, an
    observation written by a camera thread, a configuration request, each
    run to its end before the next starts.  The server's threads can also
    overlap, since the lock of [update_traffic_lights] is created by the
    call that takes it; such runs reach further states, see
    [overlapping_ticks]. *)
Inductive reachable : State -> Prop :=
| reach_init : reachable initial_state
| reach_tick s : reachable s -> reachable (update_traffic_lights s)
| reach_observe s i e c w : reachable s -> reachable (observe i e c w s)
| reach_configure s req : reachable s -> reachable (fst (update_settings req s)).

(** One observation as a tuple [(lane, emergency, vehicle_count, weight)],
    and the observations written between two ticks. *)
Definition Observation : Type := (LaneId * bool * nat * Q)%type.

Definition apply_observation (o : Observation) (s : State) : State :=
  let '(i, e, c, w) := o in observe i e c w s.

Definition apply_batch (b : list Observation) (s : State) : State :=
  fold_left (fun st o => apply_observation o st) b s.

(** A run: before each tick the observations of one batch are written. *)
Fixpoint run (batches : list (list Observation)) (s : State) : State :=
  match batches with
  | [] => s
  | b :: rest => run rest (update_traffic_lights (apply_batch b s))
  end.

(** [n] ticks without any observation in between. *)
Definition ticks (n : nat) (s : State) : State := run (repeat [] n) s.

(** ** Vocabulary of the properties *)

(** A lane is heading for green when it is green or has green pending. *)
Definition heading (l : Lane) : Prop :=
  light l = Green \/ next_state l = Some Green.

(** Only a yellow lane carries a pending state, and at most one lane is
    heading for green. *)
Record Inv (s : State) : Prop := mkInv {
  inv_pending : forall i,
      light (get_lane i s) <> Yellow -> next_state (get_lane i s) = None;
  inv_single : forall i j,
      heading (get_lane i s) -> heading (get_lane j s) -> i = j
}.

Definition green_count (s : State) : nat :=
  List.length (filter (fun i => light_eqb (light (get_lane i s)) Green) lanes_order).

(** The dictionaries after a request whose three values were accepted. *)
Definition applied (m : jvalue) (c y : Z) (s : State) : State :=
  reset_timers (set_yellow_duration y (set_cycle_duration c (set_mode m s))).

(** Lane 1 green with 10 seconds left, [Y = 3], [C = 15]. *)
Definition timing_example : State :=
  mkState (mkTraffic (mkLane false 10 Green 0 0%Q None)
                     (mkLane false 13 Red 0 0%Q None)
                     (mkLane false 28 Red 0 0%Q None)
                     (mkLane false 43 Red 0 0%Q None))
          (mkSettings (JStr "auto") 15 3 6%Q).

(** Lane 2 green with a full cycle ahead, the other lanes red. *)
Definition lane2_green : State :=
  mkState (mkTraffic (mkLane false 48 Red 0 0%Q None)
                     (mkLane false 15 Green 0 0%Q None)
                     (mkLane false 18 Red 0 0%Q None)
                     (mkLane false 33 Red 0 0%Q None))
          initial_settings.

Definition set_duration_20 : option jvalue :=
  Some (JObj [("duration"%string, JNum 20)]).

(** The hand-off from lane 4 to lane 1 one tick after the start: both
    lanes are yellow and no lane is green. *)
Definition dual_yellow : State := update_traffic_lights initial_state.

Definition is_ascii (s : string) : bool :=
  forallb (fun c => (nat_of_ascii c <? 128)%nat) (list_ascii_of_string s).

(** The number of decimal digits in a string. *)
Definition digit_count (s : string) : nat :=
  List.length (filter (fun c => match digit_value c with
                                | Some _ => true
                                | None => false
                                end)
                      (list_ascii_of_string s)).

(** A value that [int] refuses: null, a list, a dictionary, or an ASCII
    string that is no integer literal. *)
Definition non_numeric (v : jvalue) : Prop :=
  match v with
  | JNull | JArr _ | JObj _ => True
  | JStr s => is_ascii s = true /\ int_of_string s = None
  | JNum _ | JBool _ => False
  end.

(** A value that [int] turns into [z]: an integer, a boolean, or an ASCII
    integer literal of at most 4300 digits. *)
Definition numeric (v : jvalue) (z : Z) : Prop :=
  match v with
  | JNum n => n = z
  | JBool b => (if b then 1 else 0) = z
  | JStr s =>
    is_ascii s = true /\ (digit_count s <= 4300)%nat /\
    int_of_string s = Some z
  | JNull | JArr _ | JObj _ => False
  end.

(** A request that carries no usable settings: no JSON body, a body that
    is no object, or a [duration] or [yellow_duration] value that [int]
    refuses (an absent key stands for the current value). *)
Definition invalid_request (req : option jvalue) (s : State) : Prop :=
  match req with
  | Some (JObj fields) =>
    non_numeric (dict_get fields "duration"
                   (JNum (cycle_duration (system_settings s)))) \/
    non_numeric (dict_get fields "yellow_duration"
                   (JNum (yellow_duration (system_settings s))))
  | _ => True
  end.

(** [mode] is replaced, then [duration] fails to convert. *)
Definition bad_duration_request : option jvalue :=
  Some (JObj [("mode"%string, JStr "manual"); ("duration"%string, JStr "abc")]).

Definition negative_duration_request : option jvalue :=
  Some (JObj [("duration"%string, JNum (-5))]).

(** The settings and the observed fields of every lane agree. *)
Definition same_observations (s t : State) : Prop :=
  system_settings t = system_settings s /\
  forall j, emergency (get_lane j t) = emergency (get_lane j s) /\
            weight (get_lane j t) = weight (get_lane j s) /\
            vehicle_count (get_lane j t) = vehicle_count (get_lane j s).

(** A lane entry that differs from another in signal fields only. *)
Definition same_observed (l l' : Lane) : Prop :=
  emergency l' = emergency l /\ weight l' = weight l /\
  vehicle_count l' = vehicle_count l.




(** Lane 2 weighs exactly the threshold 6. *)
Definition weight_at_threshold : State := observe lane2 false 6 6%Q initial_state.

(** Lane 2 weighs 6.01. *)
Definition weight_above_threshold : State :=
  observe lane2 false 6 (601 # 100)%Q initial_state.

(** Lanes 2 and 3 both weigh 8. *)
Definition weight_tie : State :=
  observe lane3 false 4 8%Q (observe lane2 false 4 8%Q initial_state).

(** The shapes a lane entry goes through. *)
Definition is_red (l : Lane) : Prop := light l = Red /\ next_state l = None.

Definition is_green (g : Z) (l : Lane) : Prop :=
  light l = Green /\ next_state l = None /\ remaining_time l = g.

Definition is_yellow (n : Light) (y : Z) (l : Lane) : Prop :=
  light l = Yellow /\ next_state l = Some n /\ remaining_time l = y.

(** Lane 1 reports an emergency while lane 4 is green (initial values). *)
Definition emergency_on_lane1 : State := observe lane1 true 1 2%Q initial_state.

(** Both durations and every timer are non-negative. *)
Definition nonneg (s : State) : Prop :=
  0 <= cycle_duration (system_settings s) /\
  0 <= yellow_duration (system_settings s) /\
  forall i, 0 <= remaining_time (get_lane i s).

(** Lane 4, green with an elapsed timer, reports an emergency. *)
Definition emergency_on_green : State := observe lane4 true 1 2%Q initial_state.

(** The dictionaries after a request that sets the cycle duration to -5. *)
Definition negative_cycle : State :=
  fst (update_settings negative_duration_request initial_state).

(** [lanes_order[(current_index + 1) % len(lanes_order)]] *)
Definition succ_lane (k : LaneId) : LaneId := lane_at ((lane_index k + 1) mod 4).

(** Lane [k] green with [g] seconds left, every other lane red. *)
Definition GreenShape (k : LaneId) (g : Z) (s : State) : Prop :=
  is_green g (get_lane k s) /\ forall j, j <> k -> is_red (get_lane j s).

(** The hand-off from lane [k] to its successor, [y] seconds of yellow
    left on both, every other lane red. *)
Definition HandOff (k : LaneId) (y : Z) (s : State) : Prop :=
  is_yellow Red y (get_lane k s) /\
  is_yellow Green y (get_lane (succ_lane k) s) /\
  forall j, j <> k -> j <> succ_lane k -> is_red (get_lane j s).

(** Lane 1 has just turned green: the state four ticks after the start. *)
Definition lane1_turned_green : State := ticks 4 initial_state.

(** The order of the lanes in [lanes_order]. *)
Definition lane_before (a b : LaneId) : Prop := lane_index a < lane_index b.

(** Lane [m], and only lane [m], reports an emergency. *)
Definition only_emergency (m : LaneId) (s : State) : Prop :=
  forall i, emergency (get_lane i s) = laneid_eqb i m.

Definition reports_only (m : LaneId) (o : Observation) : Prop :=
  let '(i, e, _, _) := o in e = laneid_eqb i m.

(** The settings are [C], [Y], [thr]; no lane reports an emergency or
    weighs more than the threshold. *)
Definition calm (C Y : Z) (thr : Q) (s : State) : Prop :=
  cycle_duration (system_settings s) = C /\
  yellow_duration (system_settings s) = Y /\
  weight_threshold (system_settings s) = thr /\
  forall i, emergency (get_lane i s) = false /\
            (weight (get_lane i s) <= thr)%Q.

Definition calm_observation (thr : Q) (o : Observation) : Prop :=
  let '(_, e, _, w) := o in e = false /\ (w <= thr)%Q.

(** ** Vocabulary of the further properties *)

(** The shapes of a lane entry between two steps: red or green without
    pending state, or yellow with red or green pending and a timer that
    does not exceed the yellow duration [Y] (and is at least 1 when [Y]
    is). *)
Definition well_formed_lane (Y : Z) (l : Lane) : Prop :=
  match light l with
  | Yellow =>
    (next_state l = Some Red \/ next_state l = Some Green) /\
    remaining_time l <= Y /\ (1 <= Y -> 1 <= remaining_time l)
  | _ => next_state l = None
  end.

Definition well_formed (s : State) : Prop :=
  forall i, well_formed_lane (yellow_duration (system_settings s)) (get_lane i s).

(** The shape of a lane entry after the two timer loops: a yellow entry
    has at least one second left. *)
Definition settled_lane (Y : Z) (l : Lane) : Prop :=
  match light l with
  | Yellow =>
    (next_state l = Some Red \/ next_state l = Some Green) /\
    1 <= remaining_time l <= Y
  | _ => next_state l = None
  end.

(** Lane [m] is the one lane the weight branch picks: no emergency, its
    weight above the threshold and above every other weight. *)
Definition heaviest (m : LaneId) (s : State) : Prop :=
  (forall i, emergency (get_lane i s) = false) /\
  (weight_threshold (system_settings s) < weight (get_lane m s))%Q /\
  forall j, j <> m -> (weight (get_lane j s) < weight (get_lane m s))%Q.

(** None of the three settings is named in the request object. *)
Definition names_no_setting (fields : list (string * jvalue)) : Prop :=
  forall k v, In (k, v) fields ->
              k <> "mode"%string /\ k <> "duration"%string /\
              k <> "yellow_duration"%string.

(** Lane 3 is the heaviest lane, above the threshold, while lane 4 is
    green (initial values otherwise). *)
Definition heavy_lane3 : State :=
  observe lane3 false 5 9%Q (observe lane2 false 4 7%Q initial_state).

(** ** detect_objects: one processed frame *)

(** [vehicle_weights], in dictionary order. *)
Definition vehicle_weights : list (string * Q) :=
  [("car", 1); ("truck", 3); ("van", 2); ("bike", 1 # 2); ("stop sign", 2);
   ("bus", 3)]%string%Q.

(** [coco_classes] *)
Definition coco_classes : list (Z * string) :=
  [(2, "car"); (3, "motorbike"); (5, "bus"); (7, "truck");
   (9, "traffic light"); (11, "stop sign")]%string.

(** [coco_classes.get(class_id, "")] *)
Fixpoint class_name_of (classes : list (Z * string)) (class_id : Z) : string :=
  match classes with
  | [] => ""
  | (k, name) :: r => if k =? class_id then name else class_name_of r class_id
  end.

(** The counters every frame starts from. *)
Definition zero_counts : list (string * nat) :=
  [("car", 0); ("truck", 0); ("van", 0); ("bike", 0); ("stop sign", 0);
   ("bus", 0)]%string%nat.

(** [name in vehicle_weights] *)
Definition weighted (name : string) : bool :=
  existsb (fun kw => String.eqb (fst kw) name) vehicle_weights.

(** [vehicle_counts[name] += 1]; the counters have the keys of
    [vehicle_weights], so the key is present whenever the source gets
    here. *)
Definition increment (name : string) (counts : list (string * nat))
  : list (string * nat) :=
  map (fun kc => if String.eqb (fst kc) name then (fst kc, S (snd kc)) else kc)
      counts.

(** [vehicle_counts[name]] *)
Fixpoint count_of (name : string) (counts : list (string * nat)) : nat :=
  match counts with
  | [] => 0%nat
  | (k, c) :: r => if String.eqb k name then c else count_of name r
  end.

(** The body of the loop over the boxes, on the pair
    [(vehicle_counts, emergency_detected)]; a box is given by its class
    id [int(box.cls)]. *)
Definition count_box (acc : list (string * nat) * bool) (class_id : Z)
  : list (string * nat) * bool :=
  let '(vehicle_counts, emergency_detected) := acc in
  let class_name := class_name_of coco_classes class_id in
  if String.eqb class_name "stop sign"
  then (increment "stop sign" vehicle_counts, true)
  else if weighted class_name
       then (increment class_name vehicle_counts, emergency_detected)
       else (vehicle_counts, emergency_detected).

(** [for result in results: for box in result.boxes: ...] *)
Definition count_boxes (results : list (list Z)) : list (string * nat) * bool :=
  fold_left (fun acc boxes => fold_left count_box boxes acc)
            results (zero_counts, false).

(** [sum(vehicle_weights[vt] * vehicle_counts[vt] for vt in vehicle_weights)].
    The products are whole numbers or halves, which Python's floats
    represent exactly. *)
Definition total_weight (vehicle_counts : list (string * nat)) : Q :=
  fold_left (fun acc kw =>
               (acc + snd kw * inject_Z (Z.of_nat (count_of (fst kw) vehicle_counts)))%Q)
            vehicle_weights 0%Q.

(** [sum(vehicle_counts.values())] *)
Definition total_count (vehicle_counts : list (string * nat)) : nat :=
  fold_left (fun acc kc => (acc + snd kc)%nat) vehicle_counts 0%nat.

(** One frame of camera [camera_id] whose detection gave [results]: the
    counts are taken and written to the lane of the camera. *)
Definition detect_frame (camera_id : LaneId) (results : list (list Z))
           (s : State) : State :=
  let '(vehicle_counts, emergency_detected) := count_boxes results in
  observe camera_id emergency_detected (total_count vehicle_counts)
          (total_weight vehicle_counts) s.

(** The number of boxes of class [c] in the results of a frame. *)
Definition boxes_of (c : Z) (results : list (list Z)) : nat :=
  count_occ Z.eq_dec (List.concat results) c.

(** 1 for a box of class [c], 0 for any other box. *)
Definition is_class (c class_id : Z) : nat :=
  if class_id =? c then 1%nat else 0%nat.

(** The counters with the given values, in dictionary order. *)
Definition counters (car truck van bike stop bus : nat) : list (string * nat) :=
  [("car", car); ("truck", truck); ("van", van); ("bike", bike);
   ("stop sign", stop); ("bus", bus)]%string.

(** A frame with two cars, a motorbike, a bus and a stop sign. *)
Definition sample_frame : list (list Z) := [[2; 3; 2]; [5; 11]].

(** ** send_to_arduino and the light changes of a tick *)

(** The serial port object: whether it is open, whether writing to it
    raises, and what has been written to it so far. *)
Record Serial : Type := mkSerial {
  is_open : bool;
  write_fails : bool;
  written : list string
}.

(** [lane_id[-1]] *)
Definition lane_digit (i : LaneId) : string :=
  match i with
  | lane1 => "1" | lane2 => "2" | lane3 => "3" | lane4 => "4"
  end.

(** The value of a ["light"] entry. *)
Definition light_name (c : Light) : string :=
  match c with Red => "red" | Yellow => "yellow" | Green => "green" end.

Definition newline : string := String (ascii_of_nat 10) EmptyString.

(** [f"{lane}:{signal}\n"] *)
Definition message (lane signal : string) : string :=
  lane ++ ":" ++ signal ++ newline.

(** A failed write is caught and reported on the console only. *)
Definition send_to_arduino (arduino : option Serial) (lane signal : string)
  : option Serial :=
  match arduino with
  | Some port =>
    if is_open port then
      if write_fails port then arduino
      else Some (mkSerial (is_open port) (write_fails port)
                          (written port ++ [message lane signal]))
    else arduino
  | None => None
  end.

(** The connection made when the module is loaded: the third listed port
    is taken; [ports[2]] raises when there are one or two ports, and so
    may opening the port, and either exception leaves [arduino = None]. *)
Definition connect_arduino (ports : list string)
           (open_port : string -> option Serial) : option Serial :=
  match ports with
  | [] => None
  | _ =>
    match nth_error ports 2 with
    | Some device => if String.eqb device "" then None else open_port device
    | None => None
    end
  end.

(** One call [send_to_arduino(lane_id[-1], light)]. *)
Definition Event : Type := (LaneId * Light)%type.

Definition dispatch (arduino : option Serial) (events : list Event)
  : option Serial :=
  fold_left (fun a e => send_to_arduino a (lane_digit (fst e)) (light_name (snd e)))
            events arduino.

(** A loop over the lanes whose body also calls [send_to_arduino]: the
    calls are collected in order. *)
Definition lane_loop_log (body : State -> LaneId -> Lane * list Event)
           (acc : State * list Event) : State * list Event :=
  fold_left (fun a i => let '(st, log) := a in
                        let '(l, ev) := body st i in
                        (set_lane i l st, log ++ ev))
            lanes_order acc.

(** The second loop of [update_traffic_lights] with its call. *)
Definition transition_step (st : State) (lane_id : LaneId) : Lane * list Event :=
  let lane := get_lane lane_id st in
  if remaining_time lane <=? 0 then
    match next_state lane with
    | Some ns =>
      let lane' := with_signal ns None (remaining_time lane) lane in
      (match ns with
       | Green => with_time (cycle_duration (system_settings st)) lane'
       | Yellow => with_time (yellow_duration (system_settings st)) lane'
       | Red =>
         with_time (calculate_red_time (set_lane lane_id lane' st) lane_id) lane'
       end,
       [(lane_id, ns)])
    | None => (lane, [])
    end
  else (lane, []).

(** The forcing loop with its calls. *)
Definition priority_step (target : LaneId) (st : State) (lane_id : LaneId)
  : Lane * list Event :=
  let lane := get_lane lane_id st in
  let Y := yellow_duration (system_settings st) in
  if laneid_eqb lane_id target then
    match light lane with
    | Green => (lane, [])
    | Red => (with_signal Yellow (Some Green) Y lane, [(lane_id, Yellow)])
    | Yellow => (with_next (Some Green) lane, [])
    end
  else
    match light lane with
    | Green => (with_signal Yellow (Some Red) Y lane, [(lane_id, Yellow)])
    | Yellow =>
      match next_state lane with
      | Some Red => (lane, [])
      | _ => (with_next (Some Red) lane, [])
      end
    | Red => (lane, [])
    end.

(** The normal rotation with its calls. *)
Definition normal_operation_log (acc : State * list Event) : State * list Event :=
  let '(s, log) := acc in
  let Y := yellow_duration (system_settings s) in
  if any_yellow s then (s, log)
  else
    match current_green s with
    | Some cg =>
      if remaining_time (get_lane cg s) >? 0 then (s, log)
      else
        let s1 := set_lane cg (with_signal Yellow (Some Red) Y (get_lane cg s)) s in
        let next_index := (lane_index cg + 1) mod 4 in
        let next_green := lane_at next_index in
        (set_lane next_green
                  (with_signal Yellow (Some Green) Y (get_lane next_green s1)) s1,
         log ++ [(cg, Yellow)] ++ [(next_green, Yellow)])
    | None =>
      (set_lane lane4 (with_signal Yellow (Some Green) Y (get_lane lane4 s)) s,
       log ++ [(lane4, Yellow)])
    end.

Definition evaluate_priority_log (acc : State * list Event) : State * list Event :=
  let '(s2, _) := acc in
  match emergency_lane s2 with
  | Some e => lane_loop_log (priority_step e) acc
  | None =>
    match max_lane s2 with
    | Some m => lane_loop_log (priority_step m) acc
    | None => normal_operation_log acc
    end
  end.

(** [update_traffic_lights] together with the calls of [send_to_arduino]
    it makes, in order. *)
Definition update_traffic_lights_log (s : State) : State * list Event :=
  evaluate_priority_log
    (lane_loop_log transition_step (decrement_timers s, [])).

(** The light last sent for lane [i], if any. *)
Definition last_sent (i : LaneId) (log : list Event) : option Light :=
  option_map snd (find (fun e => laneid_eqb (fst e) i) (rev log)).

(** The lights agree with what has been sent: a lane for which something
    was sent shows the light sent last, any other lane the light it showed
    in [s0]. *)
Definition in_sync (s0 : State) (acc : State * list Event) : Prop :=
  forall i,
    match last_sent i (snd acc) with
    | Some c => light (get_lane i (fst acc)) = c
    | None => light (get_lane i (fst acc)) = light (get_lane i s0)
    end.

(** What one iteration may do to the visited lane: nothing to its light
    and no call, or one call with the light it has written. *)
Definition reports_change (st : State) (i : LaneId) (r : Lane * list Event) : Prop :=
  (snd r = [] /\ light (fst r) = light (get_lane i st)) \/
  snd r = [(i, light (fst r))].

(** The message of one call. *)
Definition event_message (e : Event) : string :=
  message (lane_digit (fst e)) (light_name (snd e)).

(** A port that is open and accepts writes, with nothing written yet. *)
Definition working_port : Serial := mkSerial true false [].

(** Lane 3 is the heaviest lane, above the threshold, and green. *)
Definition heavy_green_lane3 : State := ticks 4 heavy_lane3.

(** ** Calls that run one after another, and calls that overlap *)

(** One call on the shared dictionaries: a poll of [/traffic_data], which
    runs one tick, a camera write, a configuration request. *)
Inductive Call : Type :=
| Tick
| CameraWrite (camera : LaneId) (e : bool) (count : nat) (w : Q)
| Configure (request : option jvalue).

Definition perform (c : Call) (s : State) : State :=
  match c with
  | Tick => update_traffic_lights s
  | CameraWrite i e n w => observe i e n w s
  | Configure request => fst (update_settings request s)
  end.

(** The calls of a list, each run to its end before the next starts. *)
Definition perform_all (calls : list Call) (s : State) : State :=
  fold_left (fun st c => perform c st) calls s.

(** The lock of [update_traffic_lights] is made anew by every call
    ([with threading.Lock()]), so it keeps no other thread out, and the
    server handles every request in a thread of its own.  A call can thus
    be suspended between two statements while other calls run.  The
    hand-off of the normal rotation consists of two writes; the two
    definitions below are the part of the last section up to and with the
    first write, which yields the local variable [current_green] when the
    second write is still to come, and the rest. *)
Definition normal_operation_first (s : State) : State * option LaneId :=
  let Y := yellow_duration (system_settings s) in
  if any_yellow s then (s, None)
  else
    match current_green s with
    | Some cg =>
      if remaining_time (get_lane cg s) >? 0 then (s, None)
      else (set_lane cg (with_signal Yellow (Some Red) Y (get_lane cg s)) s,
            Some cg)
    | None =>
      (set_lane lane4 (with_signal Yellow (Some Green) Y (get_lane lane4 s)) s,
       None)
    end.

Definition normal_operation_rest (current_green : LaneId) (s : State) : State :=
  let Y := yellow_duration (system_settings s) in
  let next_index := (lane_index current_green + 1) mod 4 in
  let next_green := lane_at next_index in
  set_lane next_green
           (with_signal Yellow (Some Green) Y (get_lane next_green s)) s.

(** A tick up to and with the first write of a hand-off. *)
Definition update_traffic_lights_first (s : State) : State * option LaneId :=
  let s2 := after_timers s in
  match emergency_lane s2 with
  | Some e => (force_priority e s2, None)
  | None =>
    match max_lane s2 with
    | Some m => (force_priority m s2, None)
    | None => normal_operation_first s2
    end
  end.

(** What is left of a suspended tick: nothing, or the second write. *)
Definition update_traffic_lights_rest (pending : option LaneId) (s : State)
  : State :=
  match pending with
  | Some cg => normal_operation_rest cg s
  | None => s
  end.

(** Two overlapping polls at the start.  The first tick is suspended
    after it has turned lane 4 yellow; camera 3 sees a stop sign; the
    second poll runs a whole tick, which sends lane 3 toward green; the
    first tick resumes and sends lane 1 toward green; camera 3 sees
    nothing any more; three more polls follow. *)
Definition overlapping_ticks : State :=
  let '(s1, pending) := update_traffic_lights_first initial_state in
  let s2 := detect_frame lane3 [[11]] s1 in
  let s3 := update_traffic_lights s2 in
  let s4 := update_traffic_lights_rest pending s3 in
  let s5 := detect_frame lane3 [] s4 in
  ticks 3 s5.

(** * Properties *)

(** ** The dictionary as a store *)

Lemma laneid_eqb_eq i j : laneid_eqb i j = true <-> i = j.
Proof. destruct i, j; cbv; split; congruence. Qed.

Lemma laneid_eqb_refl i : laneid_eqb i i = true.
Proof. now apply laneid_eqb_eq. Qed.

Lemma laneid_eqb_neq i j : i <> j -> laneid_eqb i j = false.
Proof.
  intros H. destruct (laneid_eqb i j) eqn:E; [|reflexivity].
  now apply laneid_eqb_eq in E.
Qed.

Lemma laneid_eq_dec (i j : LaneId) : {i = j} + {i <> j}.
Proof. decide equality. Qed.

Lemma get_set_same i l s : get_lane i (set_lane i l s) = l.
Proof. now destruct i. Qed.

Lemma get_set_other i j l s : i <> j -> get_lane j (set_lane i l s) = get_lane j s.
Proof. destruct i, j; simpl; congruence. Qed.

Lemma set_get_id i s : set_lane i (get_lane i s) s = s.
Proof. destruct s as [[a b c d] st]; now destruct i. Qed.

Lemma light_eqb_eq a b : light_eqb a b = true <-> a = b.
Proof. destruct a, b; simpl; split; congruence. Qed.

Lemma light_eqb_neq a b : light_eqb a b = false <-> a <> b.
Proof. destruct a, b; simpl; split; congruence. Qed.

(** ** Loops over the four lanes *)

Section LaneLoop.
Variable body : State -> LaneId -> Lane.

(** A property kept by every iteration holds after the loop. *)
Lemma lane_loop_inv (R : State -> Prop) s :
  R s ->
  (forall st i, R st -> R (set_lane i (body st i) st)) ->
  R (lane_loop body s).
Proof.
  intros H0 Hstep. unfold lane_loop.
  generalize dependent s. induction lanes_order as [|i l IH]; intros s H0.
  - exact H0.
  - simpl. apply IH. now apply Hstep.
Qed.

(** The entry of lane [i] after the loop is the body run on the state the
    loop had reached when it visited [i]: earlier lanes already have
    their final entry, [i] and the later lanes still their old one. *)
Lemma lane_loop_get (R : State -> Prop) s i :
  R s ->
  (forall st j, R st -> R (set_lane j (body st j) st)) ->
  exists st,
    R st /\
    (system_settings st = system_settings s) /\
    (forall j, lane_index i <= lane_index j -> get_lane j st = get_lane j s) /\
    (forall j, lane_index j < lane_index i ->
               get_lane j st = get_lane j (lane_loop body s)) /\
    (get_lane i (lane_loop body s) = body st i).
Proof.
  intros H0 Hstep.
  pose (s1 := set_lane lane1 (body s lane1) s).
  pose (s2 := set_lane lane2 (body s1 lane2) s1).
  pose (s3 := set_lane lane3 (body s2 lane3) s2).
  assert (R1 : R s1) by now apply Hstep.
  assert (R2 : R s2) by now apply Hstep.
  assert (R3 : R s3) by now apply Hstep.
  destruct i.
  - exists s. repeat split; auto.
    intros j Hj. destruct j; simpl in Hj; lia.
  - exists s1. repeat split; auto.
    + intros j Hj. destruct j; simpl in Hj; try lia; reflexivity.
    + intros j Hj. destruct j; simpl in Hj; try lia; reflexivity.
  - exists s2. repeat split; auto.
    + intros j Hj. destruct j; simpl in Hj; try lia; reflexivity.
    + intros j Hj. destruct j; simpl in Hj; try lia; reflexivity.
  - exists s3. repeat split; auto.
    + intros j Hj. destruct j; simpl in Hj; try lia; reflexivity.
    + intros j Hj. destruct j; simpl in Hj; try lia; reflexivity.
Qed.
End LaneLoop.

(** ** The invariant behind mutual exclusion *)

Lemma Inv_traffic_data s t : traffic_data s = traffic_data t -> Inv s -> Inv t.
Proof.
  intros E [H1 H2].
  assert (G : forall i, get_lane i t = get_lane i s)
    by (intros i; destruct i; simpl; now rewrite E).
  split.
  - intros i. rewrite G. apply H1.
  - intros i j. rewrite !G. apply H2.
Qed.

Lemma Inv_set i l s :
  Inv s ->
  (light l <> Yellow -> next_state l = None) ->
  (heading l -> heading (get_lane i s)) ->
  Inv (set_lane i l s).
Proof.
  intros [H1 H2] Hp Hh.
  assert (K : forall x, heading (get_lane x (set_lane i l s)) ->
                        heading (get_lane x s)).
  { intros x. destruct (laneid_eq_dec i x) as [<-|N].
    - now rewrite get_set_same.
    - now rewrite get_set_other. }
  split.
  - intros j. destruct (laneid_eq_dec i j) as [<-|N].
    + now rewrite get_set_same.
    + rewrite get_set_other by assumption. apply H1.
  - intros a b Ha Hb. apply H2; now apply K.
Qed.

Lemma Inv_green_count s : Inv s -> (green_count s <= 1)%nat.
Proof.
  intros [_ H2]. unfold green_count. simpl.
  pose proof (H2 lane1 lane2) as A12. pose proof (H2 lane1 lane3) as A13.
  pose proof (H2 lane1 lane4) as A14. pose proof (H2 lane2 lane3) as A23.
  pose proof (H2 lane2 lane4) as A24. pose proof (H2 lane3 lane4) as A34.
  unfold heading in *. simpl in *.
  destruct (light (td_lane1 (traffic_data s))),
    (light (td_lane2 (traffic_data s))),
    (light (td_lane3 (traffic_data s))),
    (light (td_lane4 (traffic_data s))); simpl;
    try lia;
    first [ discriminate (A12 (or_introl eq_refl) (or_introl eq_refl))
          | discriminate (A13 (or_introl eq_refl) (or_introl eq_refl))
          | discriminate (A14 (or_introl eq_refl) (or_introl eq_refl))
          | discriminate (A23 (or_introl eq_refl) (or_introl eq_refl))
          | discriminate (A24 (or_introl eq_refl) (or_introl eq_refl))
          | discriminate (A34 (or_introl eq_refl) (or_introl eq_refl)) ].
Qed.

Lemma Inv_decrement_timers s : Inv s -> Inv (decrement_timers s).
Proof.
  intros H. apply (lane_loop_inv decrement_body Inv); [exact H|].
  intros st i Hst. unfold decrement_body.
  destruct (remaining_time (get_lane i st) >? 0);
    [|destruct (light_eqb (light (get_lane i st)) Red)].
  - apply Inv_set; auto. apply (inv_pending _ Hst).
  - apply Inv_set; auto. apply (inv_pending _ Hst).
  - now rewrite set_get_id.
Qed.

Lemma Inv_handle_transitions s : Inv s -> Inv (handle_transitions s).
Proof.
  intros H. apply (lane_loop_inv transition_body Inv); [exact H|].
  intros st i Hst. unfold transition_body.
  destruct (remaining_time (get_lane i st) <=? 0);
    [|now rewrite set_get_id].
  destruct (next_state (get_lane i st)) as [ns|] eqn:E;
    [|now rewrite set_get_id].
  apply Inv_set; auto.
  - now destruct ns.
  - unfold heading. destruct ns; simpl; intros [A|A]; try discriminate.
    right. exact E.
Qed.

Lemma force_priority_get t s i :
  get_lane i (force_priority t s) = priority_body t s i.
Proof. now destruct i. Qed.

Lemma heading_priority_body t s i :
  Inv s -> heading (priority_body t s i) -> i = t.
Proof.
  intros [H1 _]. unfold priority_body, heading.
  destruct (laneid_eqb i t) eqn:E; [intros _; now apply laneid_eqb_eq|].
  pose proof (H1 i) as P.
  destruct (light (get_lane i s)) eqn:L; simpl.
  - rewrite L, P by discriminate. intros [A|A]; discriminate A.
  - destruct (next_state (get_lane i s)) as [[| |]|] eqn:N; simpl;
      rewrite ?L, ?N; intros [A|A]; discriminate A.
  - intros [A|A]; discriminate A.
Qed.

Lemma Inv_force_priority t s : Inv s -> Inv (force_priority t s).
Proof.
  intros H. split.
  - intros i. rewrite force_priority_get. unfold priority_body.
    pose proof (inv_pending _ H i) as P.
    destruct (laneid_eqb i t); destruct (light (get_lane i s)) eqn:L;
      simpl; rewrite ?L; try congruence;
      try (intros _; apply P; discriminate).
    destruct (next_state (get_lane i s)) as [[| |]|] eqn:N; simpl;
      rewrite ?L, ?N; congruence.
  - intros i j. rewrite !force_priority_get. intros A B.
    apply (heading_priority_body t s) in A; [|exact H].
    apply (heading_priority_body t s) in B; [|exact H].
    congruence.
Qed.

Lemma any_yellow_false s :
  any_yellow s = false -> forall i, light (get_lane i s) <> Yellow.
Proof.
  unfold any_yellow. simpl. intros H i.
  repeat (apply orb_false_iff in H; destruct H as [?H H]).
  destruct i; now apply light_eqb_neq.
Qed.

Lemma current_green_some s k :
  current_green s = Some k -> light (get_lane k s) = Green.
Proof.
  unfold current_green. intros H. apply find_some in H.
  now apply light_eqb_eq.
Qed.

Lemma current_green_none s :
  current_green s = None -> forall i, light (get_lane i s) <> Green.
Proof.
  unfold current_green. intros H i.
  apply light_eqb_neq. apply (find_none _ _ H).
  destruct i; simpl; auto.
Qed.

Lemma Inv_normal_operation s : Inv s -> Inv (normal_operation s).
Proof.
  intros H. unfold normal_operation.
  destruct (any_yellow s) eqn:Y; [exact H|].
  pose proof (any_yellow_false _ Y) as NY.
  assert (P : forall i, next_state (get_lane i s) = None)
    by (intros i; apply (inv_pending _ H), NY).
  destruct (current_green s) as [cg|] eqn:G.
  - destruct (remaining_time (get_lane cg s) >? 0); [exact H|].
    pose proof (current_green_some _ _ G) as Gcg.
    set (nx := lane_at ((lane_index cg + 1) mod 4)).
    set (s1 := set_lane cg _ s).
    assert (K : forall x, x <> nx ->
                          ~ heading (get_lane x (set_lane nx
                               (with_signal Yellow (Some Green)
                                  (yellow_duration (system_settings s))
                                  (get_lane nx s1)) s1))).
    { intros x N. rewrite get_set_other by congruence.
      subst s1. destruct (laneid_eq_dec cg x) as [<-|N'].
      - rewrite get_set_same. intros [A|A]; discriminate.
      - rewrite get_set_other by assumption. intros [A|A].
        + apply N'. apply (inv_single _ H); left; assumption.
        + rewrite P in A. discriminate. }
    split.
    + intros i. destruct (laneid_eq_dec nx i) as [<-|N].
      * rewrite get_set_same. simpl. congruence.
      * rewrite get_set_other by assumption. subst s1.
        destruct (laneid_eq_dec cg i) as [<-|N'].
        -- rewrite get_set_same. simpl. congruence.
        -- rewrite get_set_other by assumption. intros _. apply P.
    + intros a b Ha Hb.
      destruct (laneid_eq_dec a nx) as [->|Na]; [|now apply K in Ha].
      destruct (laneid_eq_dec b nx) as [->|Nb]; [|now apply K in Hb].
      reflexivity.
  - pose proof (current_green_none _ G) as NG.
    assert (K : forall x, x <> lane4 ->
                ~ heading (get_lane x (set_lane lane4
                     (with_signal Yellow (Some Green)
                        (yellow_duration (system_settings s))
                        (get_lane lane4 s)) s))).
    { intros x N. rewrite get_set_other by congruence. intros [A|A].
      - now apply (NG x).
      - rewrite P in A. discriminate. }
    split.
    + intros i. destruct (laneid_eq_dec lane4 i) as [<-|N].
      * rewrite get_set_same. simpl. congruence.
      * rewrite get_set_other by assumption. intros _. apply P.
    + intros a b Ha Hb.
      destruct (laneid_eq_dec a lane4) as [->|Na]; [|now apply K in Ha].
      destruct (laneid_eq_dec b lane4) as [->|Nb]; [|now apply K in Hb].
      reflexivity.
Qed.

Lemma Inv_update_traffic_lights s : Inv s -> Inv (update_traffic_lights s).
Proof.
  intros H. unfold update_traffic_lights, evaluate_priority.
  assert (H2 : Inv (after_timers s))
    by (apply Inv_handle_transitions, Inv_decrement_timers, H).
  destruct (emergency_lane (after_timers s)).
  - now apply Inv_force_priority.
  - destruct (max_lane (after_timers s)).
    + now apply Inv_force_priority.
    + now apply Inv_normal_operation.
Qed.

Lemma Inv_observe i e c w s : Inv s -> Inv (observe i e c w s).
Proof.
  intros H. unfold observe. apply Inv_set; auto.
  apply (inv_pending _ H).
Qed.

(** ** The configuration endpoint *)

(** The two ways a request can end: an exception somewhere in the [try]
    block, which leaves the lanes, [yellow_duration] and
    [weight_threshold] as they were, or a full update followed by the
    timer reset. *)
Lemma update_settings_cases req s :
  (exists e,
      snd (update_settings req s) = mkResponse false (Some e) /\
      traffic_data (fst (update_settings req s)) = traffic_data s /\
      yellow_duration (system_settings (fst (update_settings req s)))
      = yellow_duration (system_settings s) /\
      weight_threshold (system_settings (fst (update_settings req s)))
      = weight_threshold (system_settings s))
  \/
  (exists fields c y,
      req = Some (JObj fields) /\
      py_int (dict_get fields "duration"
                (JNum (cycle_duration (system_settings s)))) = inl c /\
      py_int (dict_get fields "yellow_duration"
                (JNum (yellow_duration (system_settings s)))) = inl y /\
      update_settings req s
      = (applied (dict_get fields "mode" (mode (system_settings s))) c y s,
         mkResponse true None)).
Proof.
  destruct req as [data|]; [|left; exists BadRequest; now cbv].
  destruct data as [| b | z | str | items | fields];
    [left; exists AttributeError; repeat split; reflexivity ..|].
  unfold update_settings, update_settings_body, bind, get_json, ret, lift,
    gets, modify, dict_of. simpl.
  destruct (py_int (dict_get fields "duration" _)) as [c|e] eqn:Ec;
    [|left; exists e; now simpl].
  simpl.
  destruct (py_int (dict_get fields "yellow_duration" _)) as [y|e] eqn:Ey;
    [|left; exists e; now simpl].
  right. exists fields, c, y. repeat split; assumption.
Qed.

Lemma update_settings_object fields s c y :
  py_int (dict_get fields "duration"
            (JNum (cycle_duration (system_settings s)))) = inl c ->
  py_int (dict_get fields "yellow_duration"
            (JNum (yellow_duration (system_settings s)))) = inl y ->
  update_settings (Some (JObj fields)) s
  = (applied (dict_get fields "mode" (mode (system_settings s))) c y s,
     mkResponse true None).
Proof.
  intros Ec Ey.
  unfold update_settings, update_settings_body, bind, get_json, ret, lift,
    gets, modify, dict_of. simpl.
  rewrite Ec. simpl. rewrite Ey. reflexivity.
Qed.

Lemma applied_get m c y s i :
  get_lane i (applied m c y s)
  = reset_body (lane_index (reset_anchor s))
               (set_yellow_duration y (set_cycle_duration c (set_mode m s))) i.
Proof. now destruct i. Qed.

Lemma applied_cycle_duration m c y s :
  cycle_duration (system_settings (applied m c y s)) = c.
Proof. reflexivity. Qed.

Lemma position_zero i k : (lane_index i - lane_index k) mod 4 = 0 <-> i = k.
Proof. destruct i, k; cbv; split; congruence. Qed.

Lemma applied_anchor m c y s :
  get_lane (reset_anchor s) (applied m c y s)
  = with_signal Green None c (get_lane (reset_anchor s) s).
Proof.
  rewrite applied_get. unfold reset_body.
  rewrite (proj2 (position_zero _ _) eq_refl). simpl.
  now destruct (reset_anchor s).
Qed.

Lemma applied_other m c y s i :
  i <> reset_anchor s ->
  get_lane i (applied m c y s)
  = with_signal Red None
      ((lane_index i - lane_index (reset_anchor s)) mod 4 * c) (get_lane i s).
Proof.
  intros N. rewrite applied_get. unfold reset_body.
  destruct ((lane_index i - lane_index (reset_anchor s)) mod 4 =? 0) eqn:E.
  - apply Z.eqb_eq, position_zero in E. contradiction.
  - simpl. now destruct i.
Qed.

Lemma Inv_applied m c y s : Inv (applied m c y s).
Proof.
  assert (K : forall i, heading (get_lane i (applied m c y s)) ->
                        i = reset_anchor s).
  { intros i. destruct (laneid_eq_dec i (reset_anchor s)) as [->|N]; auto.
    rewrite applied_other by assumption. intros [A|A]; discriminate A. }
  split.
  - intros i _. destruct (laneid_eq_dec i (reset_anchor s)) as [->|N].
    + now rewrite applied_anchor.
    + now rewrite applied_other.
  - intros i j A B. apply K in A, B. congruence.
Qed.

Lemma Inv_update_settings req s : Inv s -> Inv (fst (update_settings req s)).
Proof.
  intros H. destruct (update_settings_cases req s)
    as [(e & _ & T & _)|(fields & c & y & _ & _ & _ & E)].
  - apply (Inv_traffic_data s); [now symmetry|exact H].
  - rewrite E. apply Inv_applied.
Qed.

Lemma Inv_initial_state : Inv initial_state.
Proof.
  split.
  - intros i _. now destruct i.
  - intros i j [A|A] [B|B]; destruct i, j; try reflexivity;
      discriminate A || discriminate B.
Qed.

Lemma reachable_Inv s : reachable s -> Inv s.
Proof.
  induction 1.
  - apply Inv_initial_state.
  - now apply Inv_update_traffic_lights.
  - now apply Inv_observe.
  - now apply Inv_update_settings.
Qed.

(** ** Mutual exclusion, the timing calculator and the timer reset *)

Lemma reachable_perform_all calls :
  forall s, reachable s -> reachable (perform_all calls s).
Proof.
  unfold perform_all.
  induction calls as [|c l IH]; intros s R; [exact R|].
  cbn [fold_left]. apply IH.
  destruct c; [apply reach_tick|apply reach_observe|apply reach_configure];
    exact R.
Qed.

(** A tick that is not suspended is its first part followed by the
    rest. *)
Lemma update_traffic_lights_split s :
  update_traffic_lights s
  = update_traffic_lights_rest (snd (update_traffic_lights_first s))
                               (fst (update_traffic_lights_first s)).
Proof.
  unfold update_traffic_lights, evaluate_priority, update_traffic_lights_first.
  generalize (after_timers s). clear s. intros s.
  destruct (emergency_lane s); [reflexivity|].
  destruct (max_lane s); [reflexivity|].
  unfold normal_operation, normal_operation_first.
  destruct (any_yellow s); [reflexivity|].
  destruct (current_green s) as [cg|]; [|reflexivity].
  destruct (remaining_time (get_lane cg s) >? 0); reflexivity.
Qed.

(** C1 -- Mutual exclusion is lost when two ticks overlap: from the
    initial values, a tick suspended between the two writes of its
    hand-off (lane 4 already yellow, [current_green = "lane4"] in hand)
    and a second tick run meanwhile under an emergency on lane 3 leave
    lane 1 and lane 3 both yellow with green pending; three ticks later
    both are green. *)
Theorem C1_overlapping_ticks_two_green :
  snd (update_traffic_lights_first initial_state) = Some lane4 /\
  light (get_lane lane1 overlapping_ticks) = Green /\
  light (get_lane lane3 overlapping_ticks) = Green /\
  green_count overlapping_ticks = 2%nat.
Proof. repeat split; vm_compute; reflexivity. Qed.

Lemma current_green_unique s k :
  light (get_lane k s) = Green ->
  (forall j, light (get_lane j s) = Green -> j = k) ->
  current_green s = Some k.
Proof.
  intros G U. destruct (current_green s) as [g|] eqn:E.
  - f_equal. apply U. now apply current_green_some.
  - exfalso. now apply (current_green_none _ E k).
Qed.

Lemma position_range i k : 0 <= (lane_index i - lane_index k) mod 4 <= 3.
Proof. destruct i, k; cbv; split; congruence. Qed.

(** C6 -- TimingCalculator: with exactly one green lane whose timer is
    [g], [calculate_red_time] gives 0 at rotation position 0, [g + Y] at
    position 1, [g + Y + C] at position 2 and [g + Y + 2C] at position 3,
    the position of a lane being (its index - the green index) mod 4. *)
Theorem C6_calculate_red_time s k i :
  light (get_lane k s) = Green ->
  (forall j, light (get_lane j s) = Green -> j = k) ->
  let g := remaining_time (get_lane k s) in
  let Y := yellow_duration (system_settings s) in
  let C := cycle_duration (system_settings s) in
  let position := (lane_index i - lane_index k) mod 4 in
  (position = 0 -> calculate_red_time s i = 0) /\
  (position = 1 -> calculate_red_time s i = g + Y) /\
  (position = 2 -> calculate_red_time s i = g + Y + C) /\
  (position = 3 -> calculate_red_time s i = g + Y + 2 * C) /\
  0 <= position <= 3.
Proof.
  intros G U g Y C position.
  unfold calculate_red_time. rewrite (current_green_unique s k G U).
  fold position g Y C.
  pose proof (position_range i k) as PR. fold position in PR.
  repeat split; try lia; intros Hp; rewrite Hp; cbn -[Z.mul Z.add]; lia.
Qed.

Lemma C6_calculate_red_time_witness :
  calculate_red_time timing_example lane3 = 28 /\
  calculate_red_time timing_example lane4 = 43.
Proof.
  assert (G : light (get_lane lane1 timing_example) = Green) by reflexivity.
  assert (U : forall j, light (get_lane j timing_example) = Green -> j = lane1)
    by (intros j; destruct j; simpl; congruence).
  split.
  - apply (C6_calculate_red_time timing_example lane1 lane3 G U). reflexivity.
  - apply (C6_calculate_red_time timing_example lane1 lane4 G U). reflexivity.
Defined.

Lemma update_settings_success req s :
  success (snd (update_settings req s)) = true ->
  exists m c y, update_settings req s = (applied m c y s, mkResponse true None).
Proof.
  intros H. destruct (update_settings_cases req s)
    as [(e & R & _)|(fields & c & y & _ & _ & _ & E)].
  - rewrite R in H. discriminate H.
  - eauto.
Qed.

Lemma current_green_first s k :
  light (get_lane k s) = Green ->
  (forall j, lane_index j < lane_index k -> light (get_lane j s) <> Green) ->
  current_green s = Some k.
Proof.
  intros G F. unfold current_green, lanes_order, find.
  pose proof (F lane1) as F1. pose proof (F lane2) as F2.
  pose proof (F lane3) as F3.
  destruct k; simpl in F1, F2, F3;
    repeat match goal with
           | |- context [light_eqb (light (get_lane ?j s)) Green] =>
             let E := fresh "E" in
             destruct (light_eqb (light (get_lane j s)) Green) eqn:E;
             [apply light_eqb_eq in E | apply light_eqb_neq in E]
           end;
    try reflexivity; try contradiction;
    solve [ exfalso; apply F1; [lia|assumption]
          | exfalso; apply F2; [lia|assumption]
          | exfalso; apply F3; [lia|assumption] ].
Qed.

(** C8 -- A successful update made while a lane is green (the first green
    lane in lane order, which is the green lane whenever there is only
    one) keeps that lane green with the new cycle duration and no pending
    state, and makes every other lane red, without pending state, with a
    timer of its rotation position times the new cycle duration. *)
Theorem C8_reset_keeps_green_anchor req s k :
  success (snd (update_settings req s)) = true ->
  light (get_lane k s) = Green ->
  (forall j, lane_index j < lane_index k -> light (get_lane j s) <> Green) ->
  let s' := fst (update_settings req s) in
  let C := cycle_duration (system_settings s') in
  (light (get_lane k s') = Green /\
   remaining_time (get_lane k s') = C /\
   next_state (get_lane k s') = None) /\
  (forall j, j <> k ->
     light (get_lane j s') = Red /\
     next_state (get_lane j s') = None /\
     remaining_time (get_lane j s')
     = (lane_index j - lane_index k) mod 4 * C).
Proof.
  intros OK G U. destruct (update_settings_success req s OK) as (m & c & y & E).
  rewrite E. simpl.
  assert (A : reset_anchor s = k)
    by (unfold reset_anchor; now rewrite (current_green_first s k G U)).
  split.
  - rewrite <- A, applied_anchor. now repeat split.
  - intros j N. rewrite applied_other by congruence. rewrite A.
    now repeat split.
Qed.

Lemma C8_reset_keeps_green_anchor_witness :
  let s' := fst (update_settings set_duration_20 lane2_green) in
  (light (get_lane lane2 s') = Green /\
   remaining_time (get_lane lane2 s') = 20) /\
  remaining_time (get_lane lane3 s') = 20 /\
  remaining_time (get_lane lane4 s') = 40 /\
  remaining_time (get_lane lane1 s') = 60.
Proof.
  assert (OK : success (snd (update_settings set_duration_20 lane2_green)) = true)
    by reflexivity.
  assert (G : light (get_lane lane2 lane2_green) = Green) by reflexivity.
  assert (U : forall j, lane_index j < lane_index lane2 ->
                        light (get_lane j lane2_green) <> Green)
    by (intros j; destruct j; simpl; intros H; try lia; discriminate).
  destruct (C8_reset_keeps_green_anchor set_duration_20 lane2_green lane2 OK G U)
    as [(L & T & _) R].
  split; [split; [exact L | exact T]|].
  split; [|split].
  - apply (R lane3). discriminate.
  - apply (R lane4). discriminate.
  - apply (R lane1). discriminate.
Defined.

(** C10 -- A successful update made while no lane is green anchors the
    reset at lane 4: lane 4 becomes green with the new cycle duration,
    lanes 1, 2, 3 become red with once, twice and three times that
    duration, and no pending state is left on any lane. *)
Theorem C10_reset_without_green req s :
  success (snd (update_settings req s)) = true ->
  (forall j, light (get_lane j s) <> Green) ->
  let s' := fst (update_settings req s) in
  let C := cycle_duration (system_settings s') in
  (light (get_lane lane4 s') = Green /\ remaining_time (get_lane lane4 s') = C) /\
  (light (get_lane lane1 s') = Red /\ remaining_time (get_lane lane1 s') = 1 * C) /\
  (light (get_lane lane2 s') = Red /\ remaining_time (get_lane lane2 s') = 2 * C) /\
  (light (get_lane lane3 s') = Red /\ remaining_time (get_lane lane3 s') = 3 * C) /\
  (forall j, next_state (get_lane j s') = None).
Proof.
  intros OK NG. destruct (update_settings_success req s OK) as (m & c & y & E).
  rewrite E. cbn [fst].
  assert (A : reset_anchor s = lane4).
  { unfold reset_anchor. destruct (current_green s) as [g|] eqn:G; auto.
    apply current_green_some in G. now apply NG in G. }
  pose proof (applied_anchor m c y s) as H4.
  pose proof (applied_other m c y s lane1) as H1.
  pose proof (applied_other m c y s lane2) as H2.
  pose proof (applied_other m c y s lane3) as H3.
  rewrite A in H1, H2, H3, H4.
  rewrite H4, H1, H2, H3 by discriminate.
  rewrite applied_cycle_duration.
  repeat split.
  intros j. destruct j; now rewrite ?H1, ?H2, ?H3, ?H4 by discriminate.
Qed.

Lemma C10_reset_without_green_witness :
  let s' := fst (update_settings set_duration_20 dual_yellow) in
  map (fun i => (light (get_lane i s'), remaining_time (get_lane i s'),
                 next_state (get_lane i s'))) lanes_order
  = [(Red, 20, None); (Red, 40, None); (Red, 60, None); (Green, 20, None)].
Proof.
  assert (OK : success (snd (update_settings set_duration_20 dual_yellow)) = true)
    by reflexivity.
  assert (NG : forall j, light (get_lane j dual_yellow) <> Green)
    by (intros j; destruct j; vm_compute; congruence).
  destruct (C10_reset_without_green set_duration_20 dual_yellow OK NG)
    as ((L4 & T4) & (L1 & T1) & (L2 & T2) & (L3 & T3) & P).
  cbv zeta. unfold lanes_order, map.
  rewrite L1, L2, L3, L4, T1, T2, T3, T4, !P. reflexivity.
Defined.

(** *** Rejected requests *)

(** C7, as stated, fails: a request with a non-numeric [duration] is
    answered with a failure, yet [mode] has already been overwritten; and
    a negative duration is not rejected at all. *)
Lemma C7_counterexample :
  invalid_request bad_duration_request initial_state /\
  snd (update_settings bad_duration_request initial_state)
  = mkResponse false (Some ValueError) /\
  mode (system_settings initial_state) = JStr "auto" /\
  mode (system_settings (fst (update_settings bad_duration_request initial_state)))
  = JStr "manual" /\
  fst (update_settings bad_duration_request initial_state) <> initial_state /\
  snd (update_settings negative_duration_request initial_state)
  = mkResponse true None /\
  cycle_duration
    (system_settings (fst (update_settings negative_duration_request initial_state)))
  = -5.
Proof.
  repeat split.
  - left. split; reflexivity.
  - intros E. apply (f_equal (fun s => mode (system_settings s))) in E.
    discriminate E.
Qed.

Lemma non_numeric_py_int v : non_numeric v -> exists e, py_int v = inr e.
Proof.
  destruct v as [| b | z | str | items | fields]; simpl; try contradiction;
    try (intros _; now exists TypeError).
  intros [_ E]. rewrite E. now exists ValueError.
Qed.

Lemma numeric_py_int v z : numeric v z -> py_int v = inl z.
Proof.
  destruct v as [| b | n | str | items | fields]; simpl; try contradiction.
  - now intros <-.
  - now intros <-.
  - intros (_ & _ & E). now rewrite E.
Qed.

(** C7, amended -- A request without JSON body, with a body that is no
    object, or with a [duration] or [yellow_duration] that is null, a
    list, a dictionary or an ASCII string that is no integer literal is
    answered with a failure that carries the error, and every lane
    entry, [yellow_duration] and [weight_threshold] are as before.  There
    is no range check: a request whose two values are integers, booleans
    or ASCII integer literals of at most 4300 digits (an absent key
    stands for the current value) succeeds, whatever their size or sign,
    and installs them. *)
Theorem C7_invalid_request_fails req s :
  (invalid_request req s ->
   success (snd (update_settings req s)) = false /\
   (exists e, error (snd (update_settings req s)) = Some e) /\
   traffic_data (fst (update_settings req s)) = traffic_data s /\
   yellow_duration (system_settings (fst (update_settings req s)))
   = yellow_duration (system_settings s) /\
   weight_threshold (system_settings (fst (update_settings req s)))
   = weight_threshold (system_settings s)) /\
  (forall fields c y,
     req = Some (JObj fields) ->
     numeric (dict_get fields "duration"
                (JNum (cycle_duration (system_settings s)))) c ->
     numeric (dict_get fields "yellow_duration"
                (JNum (yellow_duration (system_settings s)))) y ->
     snd (update_settings req s) = mkResponse true None /\
     cycle_duration (system_settings (fst (update_settings req s))) = c /\
     yellow_duration (system_settings (fst (update_settings req s))) = y).
Proof.
  split.
  - intros I. destruct (update_settings_cases req s)
      as [(e & R & T & Y & W)|(fields & c & y & -> & Ec & Ey & E)].
    + rewrite R. simpl. eauto 6.
    + exfalso. simpl in I.
      destruct I as [I|I]; apply non_numeric_py_int in I; destruct I as [e I];
        congruence.
  - intros fields c y -> Nc Ny.
    apply numeric_py_int in Nc, Ny.
    rewrite (update_settings_object fields s c y Nc Ny). now repeat split.
Qed.

Lemma C7_invalid_request_fails_witness :
  (success (snd (update_settings bad_duration_request initial_state)) = false /\
   traffic_data (fst (update_settings bad_duration_request initial_state))
   = traffic_data initial_state) /\
  snd (update_settings negative_duration_request initial_state)
  = mkResponse true None.
Proof.
  split.
  - assert (I : invalid_request bad_duration_request initial_state)
      by (left; split; reflexivity).
    destruct (proj1 (C7_invalid_request_fails bad_duration_request initial_state) I)
      as (F & _ & T & _).
    split; assumption.
  - apply (proj2 (C7_invalid_request_fails negative_duration_request initial_state)
             [("duration"%string, JNum (-5))] (-5) 3);
      reflexivity.
Defined.

(** ** What a tick leaves alone *)

Lemma same_observations_refl s : same_observations s s.
Proof. split; [reflexivity|now intros j]. Qed.

Lemma same_observations_trans s t u :
  same_observations s t -> same_observations t u -> same_observations s u.
Proof.
  intros [S1 L1] [S2 L2]. split; [congruence|].
  intros j. destruct (L1 j) as (A & B & C), (L2 j) as (A' & B' & C').
  repeat split; congruence.
Qed.

Lemma same_observations_set s st i l :
  same_observations s st -> same_observed (get_lane i st) l ->
  same_observations s (set_lane i l st).
Proof.
  intros [S L] (A & B & C). split; [exact S|].
  intros j. destruct (laneid_eq_dec i j) as [<-|N].
  - rewrite get_set_same. destruct (L i) as (A' & B' & C').
    repeat split; congruence.
  - rewrite get_set_other by assumption. apply L.
Qed.

Lemma same_observed_decrement st i : same_observed (get_lane i st) (decrement_body st i).
Proof.
  unfold decrement_body, same_observed.
  destruct (remaining_time (get_lane i st) >? 0);
    [|destruct (light_eqb (light (get_lane i st)) Red)]; now simpl.
Qed.

Lemma same_observed_transition st i : same_observed (get_lane i st) (transition_body st i).
Proof.
  unfold transition_body, same_observed.
  destruct (remaining_time (get_lane i st) <=? 0); [|now simpl].
  destruct (next_state (get_lane i st)) as [[| |]|]; now simpl.
Qed.

Lemma same_observed_priority t st i : same_observed (get_lane i st) (priority_body t st i).
Proof.
  unfold priority_body, same_observed.
  destruct (laneid_eqb i t), (light (get_lane i st)); try now simpl.
  destruct (next_state (get_lane i st)) as [[| |]|]; now simpl.
Qed.

Lemma same_observations_loop body s :
  (forall st i, same_observed (get_lane i st) (body st i)) ->
  same_observations s (lane_loop body s).
Proof.
  intros H. apply (lane_loop_inv body (same_observations s)).
  - apply same_observations_refl.
  - intros st i Hst. apply same_observations_set; [exact Hst|apply H].
Qed.

Lemma same_observations_after_timers s : same_observations s (after_timers s).
Proof.
  apply (same_observations_trans _ (decrement_timers s)).
  - apply same_observations_loop, same_observed_decrement.
  - apply same_observations_loop, same_observed_transition.
Qed.

Lemma same_observations_force t s : same_observations s (force_priority t s).
Proof. apply same_observations_loop, same_observed_priority. Qed.

Lemma same_observations_normal s : same_observations s (normal_operation s).
Proof.
  unfold normal_operation.
  destruct (any_yellow s); [apply same_observations_refl|].
  destruct (current_green s) as [cg|].
  - destruct (remaining_time (get_lane cg s) >? 0);
      [apply same_observations_refl|].
    apply same_observations_set; [apply same_observations_set|];
      try apply same_observations_refl; now unfold same_observed.
  - apply same_observations_set;
      [apply same_observations_refl|now unfold same_observed].
Qed.

Lemma same_observations_tick s : same_observations s (update_traffic_lights s).
Proof.
  unfold update_traffic_lights, evaluate_priority.
  apply (same_observations_trans _ (after_timers s));
    [apply same_observations_after_timers|].
  destruct (emergency_lane (after_timers s));
    [apply same_observations_force|].
  destruct (max_lane (after_timers s));
    [apply same_observations_force|apply same_observations_normal].
Qed.

Lemma emergency_lane_same s t :
  same_observations s t -> emergency_lane t = emergency_lane s.
Proof.
  intros [_ L]. unfold emergency_lane. simpl.
  destruct (L lane1) as (E1 & _), (L lane2) as (E2 & _),
    (L lane3) as (E3 & _), (L lane4) as (E4 & _).
  simpl in *. now rewrite E1, E2, E3, E4.
Qed.

Lemma py_max_ext key key' first rest :
  (forall i, key i = key' i) -> py_max key first rest = py_max key' first rest.
Proof.
  intros H. unfold py_max. revert first.
  induction rest as [|x l IH]; intros first; simpl; [reflexivity|].
  now rewrite IH, !H.
Qed.

Lemma max_lane_same s t : same_observations s t -> max_lane t = max_lane s.
Proof.
  intros [S L]. unfold max_lane, high_weight_lanes. rewrite S.
  assert (W : forall i, weight (get_lane i t) = weight (get_lane i s))
    by (intros i; apply L).
  rewrite (filter_ext _ (fun i => Qltb (weight_threshold (system_settings s))
                                     (weight (get_lane i s))))
    by (intros i; now rewrite W).
  destruct (filter _ lanes_order); [reflexivity|].
  f_equal. now apply py_max_ext.
Qed.

(** ** Emergency preemption *)

Lemma emergency_lane_first s :
  (exists i, emergency (get_lane i s) = true) ->
  exists e, emergency_lane s = Some e /\
            emergency (get_lane e s) = true /\
            forall j, lane_index j < lane_index e ->
                      emergency (get_lane j s) = false.
Proof.
  intros [i Hi]. unfold emergency_lane. simpl.
  destruct (emergency (td_lane1 (traffic_data s))) eqn:E1.
  { exists lane1. repeat split; auto. intros j; destruct j; simpl; lia. }
  destruct (emergency (td_lane2 (traffic_data s))) eqn:E2.
  { exists lane2. repeat split; auto.
    intros j; destruct j; simpl; auto; lia. }
  destruct (emergency (td_lane3 (traffic_data s))) eqn:E3.
  { exists lane3. repeat split; auto.
    intros j; destruct j; simpl; auto; lia. }
  destruct (emergency (td_lane4 (traffic_data s))) eqn:E4.
  { exists lane4. repeat split; auto.
    intros j; destruct j; simpl; auto; lia. }
  destruct i; simpl in Hi; congruence.
Qed.

Lemma emergency_lane_none s :
  (forall i, emergency (get_lane i s) = false) -> emergency_lane s = None.
Proof.
  intros H. unfold emergency_lane. simpl.
  pose proof (H lane1) as E1. pose proof (H lane2) as E2.
  pose proof (H lane3) as E3. pose proof (H lane4) as E4.
  simpl in *. now rewrite E1, E2, E3, E4.
Qed.




(** ** Weight-based preemption *)

Lemma Qltb_lt a b : Qltb a b = true <-> (a < b)%Q.
Proof.
  unfold Qltb. rewrite negb_true_iff. split.
  - intros H. apply Qnot_le_lt. intros L.
    apply Qle_bool_iff in L. congruence.
  - intros H. destruct (Qle_bool b a) eqn:E; [|reflexivity].
    apply Qle_bool_iff in E. exfalso. now apply (Qlt_not_le a b).
Qed.

Lemma Qltb_ge a b : Qltb a b = false <-> (b <= a)%Q.
Proof.
  unfold Qltb. rewrite negb_false_iff. apply Qle_bool_iff.
Qed.

(** [max] with a key over a list that is increasing for some index:
    the result is in the list, carries a largest key, and every item of
    smaller index has a strictly smaller key. *)
Section PyMax.
Variable key : LaneId -> Q.

Lemma py_max_acc rest : forall best,
  StronglySorted lane_before (best :: rest) ->
  let m := py_max key best rest in
  (m = best \/ In m rest) /\
  (key best <= key m)%Q /\
  (forall x, In x rest -> (key x <= key m)%Q) /\
  (m <> best -> (key best < key m)%Q) /\
  (forall x, In x rest -> lane_before x m -> (key x < key m)%Q).
Proof.
  induction rest as [|x l IH]; intros best S; simpl.
  - split; [now left|]. split; [lra|]. split; [contradiction|].
    split; [intros N; now contradiction N|contradiction].
  - apply StronglySorted_inv in S. destruct S as [S F].
    pose proof (StronglySorted_inv S) as [Sl Fl].
    inversion F as [|? ? Bx Bl]; subst.
    unfold py_max. simpl. fold (py_max key).
    destruct (Qltb (key best) (key x)) eqn:E.
    + apply Qltb_lt in E.
      destruct (IH x S) as (M & K & A & N & B).
      fold (py_max key x l) in *.
      set (m := py_max key x l) in *.
      split; [destruct M; auto|].
      split; [lra|].
      split; [intros y [<-|Hy]; auto|].
      split; [intros _; lra|].
      intros y [<-|Hy] Hb; [|now apply B].
      apply N. intros ->. unfold lane_before in Hb. lia.
    + apply Qltb_ge in E.
      assert (S' : StronglySorted lane_before (best :: l))
        by (constructor; assumption).
      destruct (IH best S') as (M & K & A & N & B).
      fold (py_max key best l) in *.
      set (m := py_max key best l) in *.
      split; [destruct M; auto|].
      split; [exact K|].
      split; [intros y [<-|Hy]; [lra|auto]|].
      split; [exact N|].
      intros y [<-|Hy] Hb; [|now apply B].
      assert (key best < key m)%Q; [|lra].
      apply N. intros ->. unfold lane_before in *. lia.
Qed.
End PyMax.

Lemma filter_lanes_sorted (f : LaneId -> bool) :
  StronglySorted lane_before (filter f lanes_order).
Proof.
  unfold lanes_order. simpl.
  destruct (f lane1), (f lane2), (f lane3), (f lane4);
    repeat constructor.
Qed.

(** The choice of [max_lane]: nothing when no weight is above the
    threshold; otherwise a lane above the threshold that no lane
    outweighs and that strictly outweighs every lane before it. *)
Lemma max_lane_spec s :
  let thr := weight_threshold (system_settings s) in
  let w := fun i => weight (get_lane i s) in
  match max_lane s with
  | None => forall i, (w i <= thr)%Q
  | Some m =>
    (thr < w m)%Q /\
    (forall j, (w j <= w m)%Q) /\
    (forall j, lane_index j < lane_index m -> (w j < w m)%Q)
  end.
Proof.
  intros thr w. unfold max_lane.
  assert (Hin : forall i, In i (high_weight_lanes s) <-> (thr < w i)%Q).
  { intros i. unfold high_weight_lanes. rewrite filter_In, Qltb_lt.
    split; [tauto|]. intros H. split; [destruct i; simpl; auto|exact H]. }
  pose proof (filter_lanes_sorted
                (fun i => Qltb (weight_threshold (system_settings s))
                               (weight (get_lane i s)))) as S.
  fold (high_weight_lanes s) in S.
  destruct (high_weight_lanes s) as [|x rest].
  - intros i. destruct (Qlt_le_dec thr (w i)) as [L|L]; [|exact L].
    apply Hin in L. contradiction.
  - destruct (py_max_acc w rest x S) as (M & K & A & N & B).
    change (py_max (fun i => weight (get_lane i s)) x rest)
      with (py_max w x rest).
    set (m := py_max w x rest) in *.
    assert (Hm : (thr < w m)%Q)
      by (apply Hin; destruct M as [->|M]; [now left|now right]).
    assert (Hx : (thr < w x)%Q) by (apply Hin; now left).
    split; [exact Hm|]. split.
    + intros j. destruct (Qlt_le_dec thr (w j)) as [L|L]; [|lra].
      apply Hin in L. destruct L as [<-|L]; auto.
    + intros j Hj. destruct (Qlt_le_dec thr (w j)) as [L|L]; [|lra].
      apply Hin in L. destruct L as [<-|L]; [|now apply B].
      apply N. intros E. rewrite E in Hj. lia.
Qed.

(** C5 -- Without emergency, the weight branch runs exactly when some lane
    weighs strictly more than [weight_threshold]; its target is then a
    lane of maximal weight, the first one in lane order among those of
    maximal weight.  When every weight is at or below the threshold the
    tick ends in the normal rotation. *)
Theorem C5_weight_preemption s :
  (forall i, emergency (get_lane i s) = false) ->
  let thr := weight_threshold (system_settings s) in
  let w := fun i => weight (get_lane i s) in
  ((forall i, (w i <= thr)%Q) ->
   max_lane (after_timers s) = None /\
   update_traffic_lights s = normal_operation (after_timers s)) /\
  (forall i, (thr < w i)%Q ->
   exists m,
     max_lane (after_timers s) = Some m /\
     update_traffic_lights s = force_priority m (after_timers s) /\
     (thr < w m)%Q /\
     (forall j, (w j <= w m)%Q) /\
     (forall j, lane_index j < lane_index m -> (w j < w m)%Q)).
Proof.
  intros NE thr w.
  pose proof (same_observations_after_timers s) as O.
  assert (E : emergency_lane (after_timers s) = None)
    by (rewrite (emergency_lane_same s _ O); now apply emergency_lane_none).
  pose proof (max_lane_same s _ O) as M.
  pose proof (max_lane_spec s) as P. cbv zeta in P. fold thr w in P.
  unfold update_traffic_lights, evaluate_priority. rewrite E, M.
  destruct (max_lane s) as [m|].
  - split.
    + intros A. destruct P as (P & _). specialize (A m). lra.
    + intros i _. exists m. now repeat split.
  - split.
    + intros _. now split.
    + intros i Hi. specialize (P i). lra.
Qed.

Lemma C5_weight_preemption_witness :
  (max_lane (after_timers weight_at_threshold) = None /\
   update_traffic_lights weight_at_threshold
   = normal_operation (after_timers weight_at_threshold)) /\
  (max_lane (after_timers weight_above_threshold) = Some lane2 /\
   update_traffic_lights weight_above_threshold
   = force_priority lane2 (after_timers weight_above_threshold)) /\
  max_lane (after_timers weight_tie) = Some lane2.
Proof.
  split; [|split].
  - apply (C5_weight_preemption weight_at_threshold).
    + intros i. now destruct i.
    + intros i. destruct i; vm_compute; discriminate.
  - assert (NE : forall i, emergency (get_lane i weight_above_threshold) = false)
      by (intros i; now destruct i).
    destruct (proj2 (C5_weight_preemption weight_above_threshold NE) lane2)
      as (m & M & T & H & _).
    + reflexivity.
    + assert (m = lane2)
        by (destruct m; try reflexivity; vm_compute in H; discriminate H).
      subst m. split; assumption.
  - assert (NE : forall i, emergency (get_lane i weight_tie) = false)
      by (intros i; now destruct i).
    destruct (proj2 (C5_weight_preemption weight_tie NE) lane3)
      as (m & M & _ & H & _ & B).
    + reflexivity.
    + assert (m = lane2); [|now subst m].
      destruct m; try reflexivity.
      * vm_compute in H. discriminate H.
      * specialize (B lane2 ltac:(simpl; lia)). vm_compute in B.
        discriminate B.
      * vm_compute in H. discriminate H.
Defined.

(** ** One lane through the timer phase *)

Lemma decrement_timers_lane s i :
  exists t,
    get_lane i (decrement_timers s) = with_time t (get_lane i s) /\
    (remaining_time (get_lane i s) > 0 -> t = remaining_time (get_lane i s) - 1) /\
    (remaining_time (get_lane i s) <= 0 -> light (get_lane i s) <> Red ->
     t = remaining_time (get_lane i s)).
Proof.
  destruct (lane_loop_get decrement_body (fun _ => True) s i I (fun _ _ _ => I))
    as (st & _ & _ & Hi & _ & E).
  unfold decrement_timers. rewrite E. unfold decrement_body.
  rewrite (Hi i) by lia.
  destruct (remaining_time (get_lane i s) >? 0) eqn:P.
  - eexists. split; [reflexivity|]. split; [reflexivity|lia].
  - destruct (light_eqb (light (get_lane i s)) Red) eqn:L.
    + eexists. split; [reflexivity|]. split; [lia|].
      apply light_eqb_eq in L. congruence.
    + exists (remaining_time (get_lane i s)).
      split; [now destruct (get_lane i s)|]. split; [lia|reflexivity].
Qed.

Lemma handle_transitions_lane s i :
  let l := get_lane i s in
  (remaining_time l > 0 \/ next_state l = None ->
   get_lane i (handle_transitions s) = l) /\
  (forall ns, remaining_time l <= 0 -> next_state l = Some ns ->
   exists t,
     get_lane i (handle_transitions s) = with_signal ns None t l /\
     (ns = Green -> t = cycle_duration (system_settings s)) /\
     (ns = Yellow -> t = yellow_duration (system_settings s))).
Proof.
  destruct (lane_loop_get transition_body (fun _ => True) s i I (fun _ _ _ => I))
    as (st & _ & S & Hi & _ & E).
  unfold handle_transitions. rewrite E. unfold transition_body.
  rewrite (Hi i), S by lia. cbv zeta. split.
  - intros [P|N].
    + destruct (remaining_time (get_lane i s) <=? 0) eqn:Q; [lia|reflexivity].
    + rewrite N. now destruct (remaining_time (get_lane i s) <=? 0).
  - intros ns P N. rewrite N.
    destruct (remaining_time (get_lane i s) <=? 0) eqn:Q; [|lia].
    destruct ns; eexists; (split; [reflexivity|]); split; congruence.
Qed.

Lemma timers_red s i :
  is_red (get_lane i s) -> is_red (get_lane i (after_timers s)).
Proof.
  intros [L N]. unfold after_timers.
  destruct (decrement_timers_lane s i) as (t & E & _).
  rewrite (proj1 (handle_transitions_lane _ i)); rewrite E; simpl; auto.
  now split.
Qed.

Lemma timers_green s i g :
  is_green g (get_lane i s) ->
  is_green (if g >? 0 then g - 1 else g) (get_lane i (after_timers s)).
Proof.
  intros (L & N & T). unfold after_timers.
  destruct (decrement_timers_lane s i) as (t & E & P & Q).
  rewrite (proj1 (handle_transitions_lane _ i)); rewrite E; simpl; auto.
  split; [exact L|]. split; [exact N|].
  simpl. destruct (g >? 0) eqn:G0.
  - rewrite P; lia.
  - rewrite Q; try lia. congruence.
Qed.

Lemma timers_yellow_waiting s i n y :
  is_yellow n y (get_lane i s) -> 2 <= y ->
  is_yellow n (y - 1) (get_lane i (after_timers s)).
Proof.
  intros (L & N & T) Hy. unfold after_timers.
  destruct (decrement_timers_lane s i) as (t & E & P & _).
  assert (t = y - 1) by (rewrite P; lia). subst t.
  rewrite (proj1 (handle_transitions_lane _ i)); rewrite E; simpl.
  - now repeat split.
  - left. lia.
Qed.

Lemma timers_yellow_elapsed s i n y :
  is_yellow n y (get_lane i s) -> y <= 1 ->
  light (get_lane i (after_timers s)) = n /\
  next_state (get_lane i (after_timers s)) = None /\
  (n = Green -> remaining_time (get_lane i (after_timers s))
                = cycle_duration (system_settings s)).
Proof.
  intros (L & N & T) Hy. unfold after_timers.
  destruct (decrement_timers_lane s i) as (t & E & P & Q).
  assert (Ht : t <= 0).
  { destruct (Z_gt_le_dec y 0) as [G|G].
    - rewrite P; lia.
    - rewrite Q; try lia. congruence. }
  destruct (proj2 (handle_transitions_lane (decrement_timers s) i) n)
    as (t' & E' & G & _).
  - rewrite E. simpl. exact Ht.
  - rewrite E. simpl. exact N.
  - rewrite E'. simpl. repeat split; auto.
Qed.

(** ** Runs *)

Lemma run_nil s : run [] s = s.
Proof. reflexivity. Qed.

Lemma run_cons b rest s :
  run (b :: rest) s = run rest (update_traffic_lights (apply_batch b s)).
Proof. lazy beta iota delta [run]. fold run. reflexivity. Qed.

Lemma run_app l1 l2 s : run (l1 ++ l2) s = run l2 (run l1 s).
Proof.
  revert s. induction l1 as [|b l IH]; intros s.
  - reflexivity.
  - rewrite <- app_comm_cons, !run_cons. apply IH.
Qed.

(** Observations leave the signal fields and the settings alone. *)
Lemma apply_batch_signals b s :
  system_settings (apply_batch b s) = system_settings s /\
  forall j,
    light (get_lane j (apply_batch b s)) = light (get_lane j s) /\
    next_state (get_lane j (apply_batch b s)) = next_state (get_lane j s) /\
    remaining_time (get_lane j (apply_batch b s)) = remaining_time (get_lane j s).
Proof.
  unfold apply_batch. revert s.
  induction b as [|[[[i e] c] w] b IH]; intros s; simpl; [now split|].
  destruct (IH (observe i e c w s)) as [S L]. split; [exact S|].
  intros j. destruct (L j) as (A & B & C). rewrite A, B, C.
  unfold observe. destruct (laneid_eq_dec i j) as [<-|N].
  - now rewrite get_set_same.
  - now rewrite get_set_other.
Qed.

Lemma tick_settings s :
  system_settings (update_traffic_lights s) = system_settings s.
Proof. apply (same_observations_tick s). Qed.

Lemma run_settings bs s : system_settings (run bs s) = system_settings s.
Proof.
  revert s. induction bs as [|b l IH]; intros s; [reflexivity|].
  rewrite run_cons, IH, tick_settings. apply (apply_batch_signals b s).
Qed.

(** ** Emergency preemption over several ticks *)

Section Emergency.
Variable m : LaneId.

Lemma only_emergency_batch b s :
  only_emergency m s -> Forall (reports_only m) b -> only_emergency m (apply_batch b s).
Proof.
  unfold apply_batch. revert s.
  induction b as [|[[[i e] c] w] b IH]; intros s H F; simpl; [exact H|].
  inversion F as [|? ? Ho Fb]; subst. apply IH; [|exact Fb].
  intros j. unfold observe. destruct (laneid_eq_dec i j) as [<-|N].
  - rewrite get_set_same. exact Ho.
  - rewrite get_set_other by assumption. apply H.
Qed.

Lemma only_emergency_tick s :
  only_emergency m s -> only_emergency m (update_traffic_lights s).
Proof.
  intros H i. rewrite <- H. apply (same_observations_tick s).
Qed.

Lemma only_emergency_target s : only_emergency m s -> emergency_lane s = Some m.
Proof.
  intros H. destruct (emergency_lane_first s) as (e & E & He & Hfirst).
  - exists m. rewrite H. apply laneid_eqb_refl.
  - rewrite E. f_equal. rewrite H in He. now apply laneid_eqb_eq.
Qed.

Lemma emergency_tick s :
  only_emergency m s ->
  update_traffic_lights s = force_priority m (after_timers s).
Proof.
  intros H. unfold update_traffic_lights, evaluate_priority.
  rewrite (emergency_lane_same s _ (same_observations_after_timers s)).
  now rewrite only_emergency_target.
Qed.

(** The tick that detects the emergency turns the red target yellow. *)
Lemma emergency_detected s :
  only_emergency m s -> is_red (get_lane m s) ->
  is_yellow Green (yellow_duration (system_settings s))
            (get_lane m (update_traffic_lights s)).
Proof.
  intros H R. rewrite (emergency_tick s H), force_priority_get.
  apply timers_red in R. destruct R as [L N].
  unfold priority_body. rewrite laneid_eqb_refl, L.
  rewrite (proj1 (same_observations_after_timers s)). now repeat split.
Qed.

Lemma emergency_waiting s y :
  only_emergency m s -> is_yellow Green y (get_lane m s) -> 2 <= y ->
  is_yellow Green (y - 1) (get_lane m (update_traffic_lights s)).
Proof.
  intros H R Hy. rewrite (emergency_tick s H), force_priority_get.
  apply timers_yellow_waiting in R; [|exact Hy]. destruct R as (L & N & T).
  unfold priority_body. rewrite laneid_eqb_refl, L. now repeat split.
Qed.

Lemma emergency_served s y :
  only_emergency m s -> is_yellow Green y (get_lane m s) -> y <= 1 ->
  is_green (cycle_duration (system_settings s))
           (get_lane m (update_traffic_lights s)).
Proof.
  intros H R Hy. rewrite (emergency_tick s H), force_priority_get.
  apply timers_yellow_elapsed in R; [|exact Hy]. destruct R as (L & N & T).
  unfold priority_body. rewrite laneid_eqb_refl, L.
  repeat split; auto.
Qed.

(** After a tick under emergency every other lane is red or on its way
    to red. *)
Lemma emergency_others s j :
  only_emergency m s -> j <> m ->
  let l := get_lane j (update_traffic_lights s) in
  light l = Red \/ (light l = Yellow /\ next_state l = Some Red).
Proof.
  intros H N. rewrite (emergency_tick s H), force_priority_get.
  unfold priority_body. rewrite (laneid_eqb_neq _ _ N).
  destruct (light (get_lane j (after_timers s))) eqn:L; simpl; auto.
  destruct (next_state (get_lane j (after_timers s))) as [[| |]|] eqn:P;
    simpl; auto.
Qed.

Lemma is_yellow_batch b s n y :
  is_yellow n y (get_lane m s) -> is_yellow n y (get_lane m (apply_batch b s)).
Proof.
  intros (L & N & T).
  destruct (proj2 (apply_batch_signals b s) m) as (A & B & C).
  repeat split; congruence.
Qed.

(** While the yellow timer of the target is above the number of ticks,
    the target stays yellow. *)
Lemma emergency_countdown bs : forall s y,
  only_emergency m s -> Forall (Forall (reports_only m)) bs ->
  is_yellow Green y (get_lane m s) ->
  Z.of_nat (List.length bs) < y ->
  is_yellow Green (y - Z.of_nat (List.length bs)) (get_lane m (run bs s)) /\
  only_emergency m (run bs s).
Proof.
  induction bs as [|b l IH]; intros s y H F R Hy.
  - rewrite run_nil. cbn [List.length Z.of_nat]. rewrite Z.sub_0_r.
    now split.
  - inversion F as [|? ? Fb Fl]; subst.
    rewrite run_cons. cbn [List.length] in Hy |- *.
    pose proof (only_emergency_batch b s H Fb) as H1.
    pose proof (is_yellow_batch b s _ _ R) as R1.
    pose proof (emergency_waiting _ y H1 R1 ltac:(lia)) as R2.
    destruct (IH _ (y - 1) (only_emergency_tick _ H1) Fl R2 ltac:(lia))
      as [R3 H3].
    split; [|exact H3].
    replace (y - Z.of_nat (S (List.length l)))
      with (y - 1 - Z.of_nat (List.length l)) by lia.
    exact R3.
Qed.
End Emergency.

(** C3, as stated, fails: with [yellow_duration = 3], lane 1 red and the
    only lane in emergency, lane 4 green, lane 1 is not green after 0, 1,
    2 or 3 ticks; it turns green with the fourth. *)
Lemma C3_counterexample :
  light (get_lane lane1 emergency_on_lane1) = Red /\
  light (get_lane lane4 emergency_on_lane1) = Green /\
  (forall i, emergency (get_lane i emergency_on_lane1) = laneid_eqb i lane1) /\
  yellow_duration (system_settings emergency_on_lane1) = 3 /\
  Forall (fun n => light (get_lane lane1 (ticks n emergency_on_lane1)) <> Green)
         [0; 1; 2; 3]%nat /\
  light (get_lane lane1 (ticks 4 emergency_on_lane1)) = Green.
Proof.
  repeat split.
  - intros i. now destruct i.
  - repeat constructor; vm_compute; discriminate.
Qed.

(** C3, amended -- Lane [m] red without pending state and the only lane
    in emergency, for as long as that lasts: with [Y = yellow_duration >= 1]
    lane [m] is not green during the first [Y] ticks and is green, with a
    full cycle ahead, after exactly [Y + 1] ticks (the tick that detects
    the emergency, then [Y] ticks of yellow); at that point every other
    lane is red or yellow with red pending. *)
Theorem C3_emergency_latency m s batches :
  let Y := yellow_duration (system_settings s) in
  let C := cycle_duration (system_settings s) in
  1 <= Y ->
  light (get_lane m s) = Red ->
  next_state (get_lane m s) = None ->
  only_emergency m s ->
  Forall (Forall (reports_only m)) batches ->
  (Z.of_nat (List.length batches) <= Y ->
   light (get_lane m (run batches s)) <> Green) /\
  (Z.of_nat (List.length batches) = Y + 1 ->
   light (get_lane m (run batches s)) = Green /\
   remaining_time (get_lane m (run batches s)) = C /\
   forall j, j <> m ->
     light (get_lane j (run batches s)) = Red \/
     (light (get_lane j (run batches s)) = Yellow /\
      next_state (get_lane j (run batches s)) = Some Red)).
Proof.
  intros Y C HY L N H F.
  destruct batches as [|b rest].
  { split.
    - intros _. rewrite run_nil. congruence.
    - cbn [List.length Z.of_nat]. lia. }
  inversion F as [|? ? Fb Frest]; subst.
  rewrite run_cons.
  pose proof (only_emergency_batch m b s H Fb) as H1.
  destruct (apply_batch_signals b s) as [S1 G1].
  destruct (G1 m) as (L1 & N1 & _).
  assert (R1 : is_red (get_lane m (apply_batch b s)))
    by (split; congruence).
  pose proof (emergency_detected m _ H1 R1) as Y1.
  rewrite S1 in Y1. fold Y in Y1.
  pose proof (only_emergency_tick m _ H1) as H2.
  set (s1 := update_traffic_lights (apply_batch b s)) in *.
  assert (S2 : system_settings s1 = system_settings s)
    by (subst s1; now rewrite tick_settings).
  cbn [List.length]. split.
  - intros Hlen.
    destruct (emergency_countdown m rest s1 Y H2 Frest Y1 ltac:(lia))
      as [(Ly & _) _].
    congruence.
  - intros Hlen.
    destruct (exists_last (l := rest)) as (mid & last & ->).
    { intros ->. cbn [List.length Z.of_nat] in Hlen. lia. }
    rewrite length_app in Hlen. cbn [List.length] in Hlen.
    apply Forall_app in Frest. destruct Frest as [Fmid Flast].
    inversion Flast as [|? ? Fl _]; subst.
    destruct (emergency_countdown m mid s1 Y H2 Fmid Y1 ltac:(lia))
      as [Y3 H3].
    rewrite run_app, run_cons, run_nil.
    set (s3 := run mid s1) in *.
    pose proof (only_emergency_batch m last s3 H3 Fl) as H4.
    pose proof (is_yellow_batch m last s3 _ _ Y3) as Y4.
    pose proof (emergency_served m _ _ H4 Y4 ltac:(lia)) as (Lg & _ & Tg).
    assert (S4 : system_settings (apply_batch last s3) = system_settings s).
    { rewrite (proj1 (apply_batch_signals last s3)). subst s3.
      now rewrite run_settings. }
    rewrite S4 in Tg.
    split; [exact Lg|]. split; [exact Tg|].
    intros j Nj. now apply (emergency_others m).
Qed.

Lemma C3_emergency_latency_witness :
  light (get_lane lane1 (ticks 3 emergency_on_lane1)) <> Green /\
  light (get_lane lane1 (ticks 4 emergency_on_lane1)) = Green /\
  remaining_time (get_lane lane1 (ticks 4 emergency_on_lane1)) = 15.
Proof.
  assert (HY : 1 <= yellow_duration (system_settings emergency_on_lane1))
    by (vm_compute; discriminate).
  assert (L : light (get_lane lane1 emergency_on_lane1) = Red) by reflexivity.
  assert (N : next_state (get_lane lane1 emergency_on_lane1) = None)
    by reflexivity.
  assert (H : only_emergency lane1 emergency_on_lane1)
    by (intros i; now destruct i).
  assert (F : forall n, Forall (Forall (reports_only lane1)) (repeat [] n))
    by (intros n; induction n; simpl; repeat constructor; assumption).
  split; [|split].
  - apply (C3_emergency_latency lane1 emergency_on_lane1 (repeat [] 3)
             HY L N H (F 3%nat)).
    vm_compute. discriminate.
  - apply (C3_emergency_latency lane1 emergency_on_lane1 (repeat [] 4)
             HY L N H (F 4%nat)).
    reflexivity.
  - apply (C3_emergency_latency lane1 emergency_on_lane1 (repeat [] 4)
             HY L N H (F 4%nat)).
    reflexivity.
Defined.

(** ** Timers *)

Lemma nonneg_set i l s :
  nonneg s -> 0 <= remaining_time l -> nonneg (set_lane i l s).
Proof.
  intros (C & Y & T) H. split; [exact C|]. split; [exact Y|].
  intros j. destruct (laneid_eq_dec i j) as [<-|N].
  - now rewrite get_set_same.
  - rewrite get_set_other by assumption. apply T.
Qed.

Lemma calculate_red_time_nonneg s i : nonneg s -> 0 <= calculate_red_time s i.
Proof.
  intros (C & Y & T). unfold calculate_red_time.
  destruct (current_green s) as [g|]; [|lia].
  pose proof (T g).
  repeat match goal with |- context [if ?b then _ else _] => destruct b end;
    lia.
Qed.

(** With a green lane present, a lane that is not green waits at least
    the yellow duration. *)
Lemma calculate_red_time_yellow s i :
  nonneg s -> light (get_lane i s) <> Green ->
  (exists g, light (get_lane g s) = Green) ->
  yellow_duration (system_settings s) <= calculate_red_time s i.
Proof.
  intros (C & Y & T) NG [g G]. unfold calculate_red_time.
  destruct (current_green s) as [k|] eqn:K.
  - pose proof (T k). pose proof (current_green_some _ _ K) as Gk.
    destruct ((lane_index i - lane_index k) mod 4 =? 0) eqn:P.
    + apply Z.eqb_eq, position_zero in P. congruence.
    + repeat match goal with |- context [if ?b then _ else _] => destruct b end;
        lia.
  - exfalso. apply (current_green_none _ K g G).
Qed.

Lemma nonneg_decrement_timers s : nonneg s -> nonneg (decrement_timers s).
Proof.
  intros H. apply (lane_loop_inv decrement_body nonneg); [exact H|].
  intros st i Hst. apply nonneg_set; [exact Hst|].
  unfold decrement_body. pose proof (proj2 (proj2 Hst) i) as T.
  destruct (remaining_time (get_lane i st) >? 0) eqn:P; [simpl; lia|].
  destruct (light_eqb (light (get_lane i st)) Red); [|exact T].
  simpl. now apply calculate_red_time_nonneg.
Qed.

Lemma nonneg_handle_transitions s : nonneg s -> nonneg (handle_transitions s).
Proof.
  intros H. apply (lane_loop_inv transition_body nonneg); [exact H|].
  intros st i Hst. apply nonneg_set; [exact Hst|].
  unfold transition_body. pose proof (proj2 (proj2 Hst) i) as T.
  destruct (remaining_time (get_lane i st) <=? 0); [|exact T].
  destruct (next_state (get_lane i st)) as [[| |]|]; simpl;
    try apply Hst; try exact T.
  apply calculate_red_time_nonneg. apply nonneg_set; [exact Hst|exact T].
Qed.

(** The policies leave a timer alone or set it to the yellow duration. *)
Lemma evaluate_priority_time s i :
  remaining_time (get_lane i (evaluate_priority s)) = remaining_time (get_lane i s)
  \/ remaining_time (get_lane i (evaluate_priority s))
     = yellow_duration (system_settings s).
Proof.
  assert (F : forall t,
             remaining_time (get_lane i (force_priority t s))
             = remaining_time (get_lane i s) \/
             remaining_time (get_lane i (force_priority t s))
             = yellow_duration (system_settings s)).
  { intros t. rewrite force_priority_get. unfold priority_body.
    destruct (laneid_eqb i t), (light (get_lane i s)); simpl; auto.
    destruct (next_state (get_lane i s)) as [[| |]|]; simpl; auto. }
  unfold evaluate_priority.
  destruct (emergency_lane s); [apply F|].
  destruct (max_lane s); [apply F|].
  unfold normal_operation.
  destruct (any_yellow s); auto.
  destruct (current_green s) as [cg|].
  - destruct (remaining_time (get_lane cg s) >? 0); auto.
    set (nx := lane_at _).
    destruct (laneid_eq_dec nx i) as [<-|N].
    + rewrite get_set_same. simpl. auto.
    + rewrite get_set_other by assumption.
      destruct (laneid_eq_dec cg i) as [<-|N'].
      * rewrite get_set_same. simpl. auto.
      * rewrite get_set_other by assumption. auto.
  - destruct (laneid_eq_dec lane4 i) as [<-|N].
    + rewrite get_set_same. simpl. auto.
    + rewrite get_set_other by assumption. auto.
Qed.

Lemma nonneg_update_traffic_lights s :
  nonneg s -> nonneg (update_traffic_lights s).
Proof.
  intros H.
  assert (H2 : nonneg (after_timers s))
    by (apply nonneg_handle_transitions, nonneg_decrement_timers, H).
  destruct H2 as (C & Y & T).
  split; [|split]; rewrite ?tick_settings; try apply H.
  intros i. unfold update_traffic_lights.
  destruct (evaluate_priority_time (after_timers s) i) as [E|E];
    rewrite E; [apply T|exact Y].
Qed.

(** An elapsed red timer is recomputed in the first loop, from the green
    lane present at that moment. *)
Lemma red_timer_recomputed s i :
  nonneg s ->
  light (get_lane i s) = Red -> remaining_time (get_lane i s) = 0 ->
  (exists g, light (get_lane g s) = Green) ->
  yellow_duration (system_settings s)
  <= remaining_time (get_lane i (decrement_timers s)).
Proof.
  intros H L Z G.
  pose (R := fun st => nonneg st /\
                       forall j, light (get_lane j st) = light (get_lane j s)).
  assert (R0 : R s) by (split; auto).
  assert (Rstep : forall st j, R st -> R (set_lane j (decrement_body st j) st)).
  { intros st j [N Li]. split.
    - apply nonneg_set; [exact N|].
      unfold decrement_body. pose proof (proj2 (proj2 N) j) as T.
      destruct (remaining_time (get_lane j st) >? 0) eqn:P; [simpl; lia|].
      destruct (light_eqb (light (get_lane j st)) Red); [|exact T].
      simpl. now apply calculate_red_time_nonneg.
    - intros k. destruct (laneid_eq_dec j k) as [<-|Nk].
      + rewrite get_set_same, <- Li. unfold decrement_body.
        destruct (remaining_time (get_lane j st) >? 0); [reflexivity|].
        now destruct (light_eqb (light (get_lane j st)) Red).
      + rewrite get_set_other by assumption. apply Li. }
  destruct (lane_loop_get decrement_body R s i R0 Rstep)
    as (st & [N Li] & S & Hi & _ & E).
  unfold decrement_timers. rewrite E. unfold decrement_body.
  rewrite (Hi i) by lia. rewrite Z, L. simpl. rewrite <- S.
  apply calculate_red_time_yellow; [exact N| |].
  - rewrite Li, L. discriminate.
  - destruct G as [g G]. exists g. now rewrite Li.
Qed.

(** C9, as stated, fails: a green lane that is the emergency target is
    left alone, so its timer stays at 0 tick after tick; and after a
    request with a negative duration a tick leaves negative timers. *)
Lemma C9_counterexample :
  reachable emergency_on_green /\
  remaining_time (get_lane lane4 emergency_on_green) = 0 /\
  remaining_time (get_lane lane4 (ticks 1 emergency_on_green)) = 0 /\
  remaining_time (get_lane lane4 (ticks 2 emergency_on_green)) = 0 /\
  reachable negative_cycle /\
  remaining_time (get_lane lane2 (update_traffic_lights negative_cycle)) = -7.
Proof.
  split; [apply reach_observe, reach_init|].
  split; [reflexivity|]. split; [reflexivity|]. split; [reflexivity|].
  split; [apply reach_configure, reach_init|reflexivity].
Qed.

(** C9, amended -- With non-negative durations, timers that are
    non-negative before a tick are non-negative after it.  A red lane at 0
    is recomputed to a positive value within the tick when some lane is
    green and the yellow duration is positive.  A green lane at 0 that is
    the emergency target is not resolved: it is green at 0 after the tick
    as well. *)
Theorem C9_timers s :
  0 <= cycle_duration (system_settings s) ->
  0 <= yellow_duration (system_settings s) ->
  (forall i, 0 <= remaining_time (get_lane i s)) ->
  (forall i, 0 <= remaining_time (get_lane i (update_traffic_lights s))) /\
  (0 < yellow_duration (system_settings s) ->
   forall i,
     light (get_lane i s) = Red ->
     remaining_time (get_lane i s) = 0 ->
     (exists g, light (get_lane g s) = Green) ->
     0 < remaining_time (get_lane i (update_traffic_lights s))) /\
  (forall i,
     light (get_lane i s) = Green ->
     next_state (get_lane i s) = None ->
     remaining_time (get_lane i s) = 0 ->
     emergency_lane s = Some i ->
     light (get_lane i (update_traffic_lights s)) = Green /\
     remaining_time (get_lane i (update_traffic_lights s)) = 0).
Proof.
  intros C Y T.
  assert (H : nonneg s) by (split; [exact C|split; [exact Y|exact T]]).
  split; [apply (nonneg_update_traffic_lights s H)|].
  split.
  - intros Ypos i L Z G.
    pose proof (red_timer_recomputed s i H L Z G) as P.
    assert (Q : get_lane i (after_timers s) = get_lane i (decrement_timers s)).
    { unfold after_timers. apply handle_transitions_lane. left. lia. }
    unfold update_traffic_lights.
    destruct (evaluate_priority_time (after_timers s) i) as [E|E]; rewrite E.
    + rewrite Q. lia.
    + rewrite (proj1 (same_observations_after_timers s)). lia.
  - intros i L N Z E.
    assert (G : is_green 0 (get_lane i s)) by (repeat split; assumption).
    apply timers_green in G. simpl in G. destruct G as (L2 & N2 & T2).
    unfold update_traffic_lights, evaluate_priority.
    rewrite (emergency_lane_same s _ (same_observations_after_timers s)), E.
    rewrite force_priority_get. unfold priority_body.
    rewrite laneid_eqb_refl, L2. now split.
Qed.

Lemma C9_timers_witness :
  (forall i, 0 <= remaining_time (get_lane i (update_traffic_lights emergency_on_green))) /\
  0 < remaining_time (get_lane lane3 (update_traffic_lights
                                       (ticks 15 initial_state))) /\
  remaining_time (get_lane lane4 (update_traffic_lights emergency_on_green)) = 0.
Proof.
  assert (T : forall s, s = emergency_on_green \/ s = ticks 15 initial_state ->
                        0 <= cycle_duration (system_settings s) /\
                        0 <= yellow_duration (system_settings s) /\
                        forall i, 0 <= remaining_time (get_lane i s)).
  { intros s [->| ->]; (split; [|split]); try (vm_compute; discriminate);
      intros i; destruct i; vm_compute; discriminate. }
  destruct (T emergency_on_green (or_introl eq_refl)) as (C1 & Y1 & T1).
  destruct (T (ticks 15 initial_state) (or_intror eq_refl)) as (C2 & Y2 & T2).
  split; [|split].
  - apply (C9_timers emergency_on_green C1 Y1 T1).
  - apply (C9_timers (ticks 15 initial_state) C2 Y2 T2).
    + vm_compute. reflexivity.
    + vm_compute. reflexivity.
    + vm_compute. reflexivity.
    + exists lane1. vm_compute. reflexivity.
  - apply (C9_timers emergency_on_green C1 Y1 T1); reflexivity.
Defined.

(** ** Normal rotation over several ticks *)

Lemma succ_lane_neq k : succ_lane k <> k.
Proof. destruct k; discriminate. Qed.

Lemma succ_lane_four k : succ_lane (succ_lane (succ_lane (succ_lane k))) = k.
Proof. now destruct k. Qed.

Lemma any_yellow_true s k : light (get_lane k s) = Yellow -> any_yellow s = true.
Proof.
  intros H. unfold any_yellow. apply existsb_exists. exists k.
  split; [destruct k; simpl; auto|]. now apply light_eqb_eq.
Qed.

Lemma any_yellow_none s :
  (forall i, light (get_lane i s) <> Yellow) -> any_yellow s = false.
Proof.
  intros H. destruct (any_yellow s) eqn:E; [|reflexivity].
  unfold any_yellow in E. apply existsb_exists in E.
  destruct E as (k & _ & E). apply light_eqb_eq in E. now apply H in E.
Qed.

Lemma GreenShape_lights k g s :
  GreenShape k g s ->
  any_yellow s = false /\ current_green s = Some k.
Proof.
  intros [(L & _ & _) R]. split.
  - apply any_yellow_none. intros i.
    destruct (laneid_eq_dec i k) as [->|N]; [congruence|].
    destruct (R i N) as [Li _]. congruence.
  - apply current_green_unique; [exact L|].
    intros j G. destruct (laneid_eq_dec j k) as [->|N]; [reflexivity|].
    destruct (R j N) as [Lj _]. congruence.
Qed.

Lemma normal_green_hold k g s :
  GreenShape k g s -> 0 < g -> normal_operation s = s.
Proof.
  intros H Hg. destruct (GreenShape_lights k g s H) as [A G].
  destruct H as [(_ & _ & T) _].
  unfold normal_operation. rewrite A, G, T.
  destruct (g >? 0) eqn:P; [reflexivity|lia].
Qed.

Lemma normal_green_expired k g s :
  GreenShape k g s -> g <= 0 ->
  HandOff k (yellow_duration (system_settings s)) (normal_operation s).
Proof.
  intros H Hg. destruct (GreenShape_lights k g s H) as [A G].
  destruct H as [(_ & _ & T) R].
  unfold normal_operation. rewrite A, G, T.
  destruct (g >? 0) eqn:P; [lia|]. fold (succ_lane k).
  pose proof (succ_lane_neq k) as N.
  split; [|split].
  - rewrite get_set_other, get_set_same by assumption. now repeat split.
  - rewrite get_set_same. now repeat split.
  - intros j Nk Ns. rewrite !get_set_other by congruence. now apply R.
Qed.

Lemma normal_handoff k y s : HandOff k y s -> normal_operation s = s.
Proof.
  intros [(L & _) _]. unfold normal_operation.
  now rewrite (any_yellow_true s k L).
Qed.

Lemma timers_GreenShape k g s :
  GreenShape k g s -> GreenShape k (if g >? 0 then g - 1 else g) (after_timers s).
Proof.
  intros [G R]. split; [now apply timers_green|].
  intros j N. now apply timers_red, R.
Qed.

Lemma timers_HandOff_waiting k y s :
  HandOff k y s -> 2 <= y -> HandOff k (y - 1) (after_timers s).
Proof.
  intros (A & B & R) Hy. split; [|split].
  - now apply timers_yellow_waiting.
  - now apply timers_yellow_waiting.
  - intros j Nk Ns. now apply timers_red, R.
Qed.

Lemma timers_HandOff_elapsed k y s :
  HandOff k y s -> y <= 1 ->
  GreenShape (succ_lane k) (cycle_duration (system_settings s)) (after_timers s).
Proof.
  intros (A & B & R) Hy.
  destruct (timers_yellow_elapsed s _ _ _ A Hy) as (La & Na & _).
  destruct (timers_yellow_elapsed s _ _ _ B Hy) as (Lb & Nb & Tb).
  split.
  - repeat split; auto.
  - intros j Ns. destruct (laneid_eq_dec j k) as [->|Nk].
    + now split.
    + now apply timers_red, R.
Qed.

Lemma apply_batch_shape (P : Lane -> Prop) b s j :
  (forall l l', light l' = light l -> next_state l' = next_state l ->
                remaining_time l' = remaining_time l -> P l -> P l') ->
  P (get_lane j s) -> P (get_lane j (apply_batch b s)).
Proof.
  intros H. destruct (proj2 (apply_batch_signals b s) j) as (A & B & C).
  now apply H.
Qed.

Lemma GreenShape_batch k g b s : GreenShape k g s -> GreenShape k g (apply_batch b s).
Proof.
  intros [G R]. split.
  - revert G. apply apply_batch_shape. unfold is_green.
    intros l l' -> -> ->. auto.
  - intros j N. generalize (R j N). apply apply_batch_shape. unfold is_red.
    intros l l' -> -> _. auto.
Qed.

Lemma HandOff_batch k y b s : HandOff k y s -> HandOff k y (apply_batch b s).
Proof.
  intros (A & B & R). split; [|split].
  - revert A. apply apply_batch_shape. unfold is_yellow.
    intros l l' -> -> ->. auto.
  - revert B. apply apply_batch_shape. unfold is_yellow.
    intros l l' -> -> ->. auto.
  - intros j Nk Ns. generalize (R j Nk Ns). apply apply_batch_shape.
    unfold is_red. intros l l' -> -> _. auto.
Qed.

Section Rotation.
Variables C Y : Z.
Variable thr : Q.
Hypothesis C_positive : 1 <= C.
Hypothesis Y_positive : 1 <= Y.

Lemma calm_batch b s : calm C Y thr s -> Forall (calm_observation thr) b -> calm C Y thr (apply_batch b s).
Proof.
  unfold apply_batch. revert s.
  induction b as [|[[[i e] c] w] b IH]; intros s H F; simpl; [exact H|].
  inversion F as [|? ? Ho Fb]; subst. destruct Ho as [He Hw].
  apply IH; [|exact Fb].
  destruct H as (Hc & Hy & Ht & Hq).
  split; [exact Hc|]. split; [exact Hy|]. split; [exact Ht|].
  intros j. unfold observe. destruct (laneid_eq_dec i j) as [<-|N].
  - rewrite get_set_same. now split.
  - rewrite get_set_other by assumption. apply Hq.
Qed.

Lemma calm_same s t : same_observations s t -> calm C Y thr s -> calm C Y thr t.
Proof.
  intros [S L] (Hc & Hy & Ht & Hq). rewrite <- S in Hc, Hy, Ht.
  split; [exact Hc|]. split; [exact Hy|]. split; [exact Ht|].
  intros j. destruct (L j) as (E & W & _). rewrite E, W. apply Hq.
Qed.

Lemma calm_tick s : calm C Y thr s -> calm C Y thr (update_traffic_lights s).
Proof. apply calm_same, same_observations_tick. Qed.

(** Without emergency and without a heavy lane the tick ends in the
    normal rotation. *)
Lemma calm_policy s : calm C Y thr s -> evaluate_priority s = normal_operation s.
Proof.
  intros (_ & _ & Ht & Hq). unfold evaluate_priority.
  rewrite emergency_lane_none by (intros i; apply Hq).
  pose proof (max_lane_spec s) as P. cbv zeta in P. rewrite Ht in P.
  destruct (max_lane s) as [m|]; [|reflexivity].
  destruct P as (P & _). destruct (Hq m) as [_ W]. lra.
Qed.

Lemma calm_update s :
  calm C Y thr s -> update_traffic_lights s = normal_operation (after_timers s).
Proof.
  intros H. unfold update_traffic_lights. apply calm_policy.
  revert H. apply calm_same, same_observations_after_timers.
Qed.

Lemma tick_green_hold k g s :
  calm C Y thr s -> GreenShape k g s -> 2 <= g ->
  GreenShape k (g - 1) (update_traffic_lights s).
Proof.
  intros H G Hg. rewrite (calm_update s H).
  apply timers_GreenShape in G.
  destruct (g >? 0) eqn:P; [|lia].
  now rewrite (normal_green_hold k (g - 1)) by (assumption || lia).
Qed.

Lemma tick_green_expire k g s :
  calm C Y thr s -> GreenShape k g s -> g <= 1 -> HandOff k Y (update_traffic_lights s).
Proof.
  intros H G Hg. rewrite (calm_update s H).
  apply timers_GreenShape in G.
  pose proof (normal_green_expired k _ _ G) as E.
  rewrite (proj1 (same_observations_after_timers s)) in E.
  rewrite (proj1 (proj2 H)) in E. apply E.
  destruct (g >? 0) eqn:P; lia.
Qed.

Lemma tick_yellow_wait k y s :
  calm C Y thr s -> HandOff k y s -> 2 <= y ->
  HandOff k (y - 1) (update_traffic_lights s).
Proof.
  intros H G Hy. rewrite (calm_update s H).
  apply timers_HandOff_waiting in G; [|exact Hy].
  now rewrite (normal_handoff k (y - 1)).
Qed.

Lemma tick_yellow_done k y s :
  calm C Y thr s -> HandOff k y s -> y <= 1 ->
  GreenShape (succ_lane k) C (update_traffic_lights s).
Proof.
  intros H G Hy. rewrite (calm_update s H).
  apply timers_HandOff_elapsed in G; [|exact Hy].
  rewrite (proj1 H) in G.
  now rewrite (normal_green_hold (succ_lane k) C) by (assumption || lia).
Qed.

(** A green lane with [g] seconds left starts its hand-off with the
    [g]-th tick. *)
Lemma green_phase k bs : forall s g,
  calm C Y thr s -> Forall (Forall (calm_observation thr)) bs ->
  GreenShape k g s -> 1 <= g -> Z.of_nat (List.length bs) = g ->
  HandOff k Y (run bs s) /\ calm C Y thr (run bs s).
Proof.
  induction bs as [|b l IH]; intros s g H F G Hg Hlen.
  - cbn [List.length Z.of_nat] in Hlen. lia.
  - apply Forall_cons_iff in F. destruct F as [Fb Fl]. rewrite run_cons.
    cbn [List.length] in Hlen. subst.
    pose proof (calm_batch b s H Fb) as H1.
    pose proof (GreenShape_batch k _ b s G) as G1.
    pose proof (calm_tick _ H1) as H2.
    destruct (Z_le_gt_dec 2 (Z.of_nat (S (List.length l)))) as [Big|Small].
    + apply (IH _ (Z.of_nat (S (List.length l)) - 1)); auto; try lia.
      now apply tick_green_hold.
    + destruct l; [|cbn [List.length] in Small; lia].
      rewrite run_nil. split; [|exact H2].
      apply (tick_green_expire k (Z.of_nat 1)); auto; simpl; lia.
Qed.

(** A hand-off with [y] seconds of yellow left ends with the [y]-th
    tick: the successor is green with a full cycle ahead. *)
Lemma yellow_phase k bs : forall s y,
  calm C Y thr s -> Forall (Forall (calm_observation thr)) bs ->
  HandOff k y s -> 1 <= y -> Z.of_nat (List.length bs) = y ->
  GreenShape (succ_lane k) C (run bs s) /\ calm C Y thr (run bs s).
Proof.
  induction bs as [|b l IH]; intros s y H F G Hy Hlen.
  - cbn [List.length Z.of_nat] in Hlen. lia.
  - apply Forall_cons_iff in F. destruct F as [Fb Fl]. rewrite run_cons.
    cbn [List.length] in Hlen. subst.
    pose proof (calm_batch b s H Fb) as H1.
    pose proof (HandOff_batch k _ b s G) as G1.
    pose proof (calm_tick _ H1) as H2.
    destruct (Z_le_gt_dec 2 (Z.of_nat (S (List.length l)))) as [Big|Small].
    + apply (IH _ (Z.of_nat (S (List.length l)) - 1)); auto; try lia.
      now apply tick_yellow_wait.
    + destruct l; [|cbn [List.length] in Small; lia].
      rewrite run_nil. split; [|exact H2].
      apply (tick_yellow_done k (Z.of_nat 1)); auto; simpl; lia.
Qed.

(** One leg of the rotation takes [C + Y] ticks. *)
Lemma rotation_leg k bs s :
  calm C Y thr s -> Forall (Forall (calm_observation thr)) bs ->
  GreenShape k C s -> Z.of_nat (List.length bs) = C + Y ->
  GreenShape (succ_lane k) C (run bs s) /\ calm C Y thr (run bs s).
Proof.
  intros H F G Hlen.
  rewrite <- (firstn_skipn (Z.to_nat C) bs) in F |- *.
  apply Forall_app in F. destruct F as [F1 F2].
  rewrite run_app.
  destruct (green_phase k (firstn (Z.to_nat C) bs) s C H F1 G C_positive)
    as [G1 H1].
  { rewrite length_firstn. lia. }
  apply (yellow_phase k _ _ Y H1 F2 G1 Y_positive).
  rewrite length_skipn. lia.
Qed.

(** Four legs bring the green back. *)
Lemma rotation_closure k bs s :
  calm C Y thr s -> Forall (Forall (calm_observation thr)) bs ->
  GreenShape k C s -> Z.of_nat (List.length bs) = 4 * (C + Y) ->
  GreenShape k C (run bs s).
Proof.
  intros H F G Hlen.
  set (n := Z.to_nat (C + Y)).
  assert (split4 : forall (l : list (list Observation)) (q : nat),
             Forall (Forall (calm_observation thr)) l ->
             (q <= List.length l)%nat ->
             exists a r, l = a ++ r /\ List.length a = q /\
                         Forall (Forall (calm_observation thr)) a /\
                         Forall (Forall (calm_observation thr)) r).
  { intros l q Fl Hq. exists (firstn q l), (skipn q l).
    rewrite <- (firstn_skipn q l) in Fl. apply Forall_app in Fl.
    split; [now rewrite firstn_skipn|]. split; [|exact Fl].
    rewrite length_firstn. lia. }
  destruct (split4 bs n F ltac:(lia)) as (b1 & r1 & -> & L1 & F1 & Fr1).
  rewrite length_app in Hlen.
  destruct (split4 r1 n Fr1 ltac:(lia)) as (b2 & r2 & -> & L2 & F2 & Fr2).
  rewrite length_app in Hlen.
  destruct (split4 r2 n Fr2 ltac:(lia)) as (b3 & b4 & -> & L3 & F3 & F4).
  rewrite length_app in Hlen.
  rewrite !run_app.
  destruct (rotation_leg k b1 s H F1 G ltac:(lia)) as [G1 H1].
  destruct (rotation_leg _ b2 _ H1 F2 G1 ltac:(lia)) as [G2 H2].
  destruct (rotation_leg _ b3 _ H2 F3 G2 ltac:(lia)) as [G3 H3].
  destruct (rotation_leg _ b4 _ H3 F4 G3 ltac:(lia)) as [G4 _].
  now rewrite succ_lane_four in G4.
Qed.
End Rotation.

(** C2, as stated, fails on the module-level initial values: lane 4 is
    green, nothing exceeds the threshold, [C = 15] and [Y = 3], yet after
    4 * (15 + 3) = 72 ticks lane 4 is green with 1 second left, not 15:
    its timer started at 0, not at [C]. *)
Lemma C2_counterexample :
  light (get_lane lane4 initial_state) = Green /\
  (forall i, emergency (get_lane i initial_state) = false /\
             (weight (get_lane i initial_state)
              <= weight_threshold (system_settings initial_state))%Q) /\
  cycle_duration (system_settings initial_state) = 15 /\
  yellow_duration (system_settings initial_state) = 3 /\
  light (get_lane lane4 (ticks 72 initial_state)) = Green /\
  remaining_time (get_lane lane4 (ticks 72 initial_state)) = 1.
Proof.
  split; [reflexivity|]. split.
  - intros i. destruct i; (split; [reflexivity|vm_compute; discriminate]).
  - repeat split; vm_compute; reflexivity.
Qed.

(** C2, amended -- Rotation closure from the start of a green phase: with
    [C >= 1] and [Y >= 1], lane [k] green with [remaining_time = C], every
    other lane red, nothing pending, and neither an emergency nor a weight
    above the threshold at any tick, lane [k] is green again with
    [remaining_time = C] after exactly [4 * (C + Y)] ticks. *)
Theorem C2_rotation_closure k s batches :
  let C := cycle_duration (system_settings s) in
  let Y := yellow_duration (system_settings s) in
  let thr := weight_threshold (system_settings s) in
  1 <= C -> 1 <= Y ->
  (forall i, emergency (get_lane i s) = false /\ (weight (get_lane i s) <= thr)%Q) ->
  Forall (Forall (calm_observation thr)) batches ->
  light (get_lane k s) = Green ->
  next_state (get_lane k s) = None ->
  remaining_time (get_lane k s) = C ->
  (forall j, j <> k ->
             light (get_lane j s) = Red /\ next_state (get_lane j s) = None) ->
  Z.of_nat (List.length batches) = 4 * (C + Y) ->
  light (get_lane k (run batches s)) = Green /\
  remaining_time (get_lane k (run batches s)) = C.
Proof.
  intros C Y thr HC HY Q F L N T R Hlen.
  assert (H : calm C Y thr s) by (repeat split; auto; apply Q).
  assert (G : GreenShape k C s) by (split; [repeat split; auto|exact R]).
  destruct (rotation_closure C Y thr HC HY k batches s H F G Hlen)
    as [(L' & _ & T') _].
  now split.
Qed.

Lemma C2_rotation_closure_witness :
  light (get_lane lane1 (ticks 72 lane1_turned_green)) = Green /\
  remaining_time (get_lane lane1 (ticks 72 lane1_turned_green)) = 15.
Proof.
  apply (C2_rotation_closure lane1 lane1_turned_green (repeat [] 72)).
  - vm_compute. discriminate.
  - vm_compute. discriminate.
  - intros i. destruct i; (split; [reflexivity|vm_compute; discriminate]).
  - apply Forall_forall. intros b Hb. apply repeat_spec in Hb. subst b.
    constructor.
  - reflexivity.
  - reflexivity.
  - reflexivity.
  - intros j Hj. destruct j; [now contradiction Hj|now split ..].
  - reflexivity.
Defined.

(** * Further properties *)

(** ** The shape of the states reached by calls run in turn *)

Lemma settled_well_formed Y l : settled_lane Y l -> well_formed_lane Y l.
Proof.
  unfold settled_lane, well_formed_lane. destruct (light l); auto.
  intros (P & T). split; [exact P|]. split; lia.
Qed.

Lemma after_timers_settled s i Y :
  well_formed_lane Y (get_lane i s) -> settled_lane Y (get_lane i (after_timers s)).
Proof.
  unfold well_formed_lane, settled_lane.
  destruct (light (get_lane i s)) eqn:L.
  - intros N. destruct (timers_red s i (conj L N)) as [L2 N2].
    now rewrite L2.
  - intros (P & T & _).
    destruct (Z_le_gt_dec 2 (remaining_time (get_lane i s))) as [Big|Small].
    + assert (exists n, is_yellow n (remaining_time (get_lane i s)) (get_lane i s)
                        /\ (n = Red \/ n = Green)) as (n & Hy & Hn).
      { destruct P as [P|P]; [exists Red|exists Green];
          (split; [now repeat split|auto]). }
      destruct (timers_yellow_waiting s i n _ Hy Big) as (L2 & N2 & T2).
      rewrite L2, N2, T2. split; [|lia].
      destruct Hn as [->| ->]; auto.
    + assert (exists n, is_yellow n (remaining_time (get_lane i s)) (get_lane i s)
                        /\ (n = Red \/ n = Green)) as (n & Hy & Hn).
      { destruct P as [P|P]; [exists Red|exists Green];
          (split; [now repeat split|auto]). }
      destruct (timers_yellow_elapsed s i n _ Hy ltac:(lia)) as (L2 & N2 & _).
      rewrite L2. destruct Hn as [->| ->]; exact N2.
  - intros N.
    destruct (timers_green s i _ (conj L (conj N eq_refl))) as (L2 & N2 & _).
    now rewrite L2.
Qed.

Lemma well_formed_yellow Y n l :
  n = Red \/ n = Green -> well_formed_lane Y (with_signal Yellow (Some n) Y l).
Proof.
  intros Hn. unfold well_formed_lane. simpl.
  split; [destruct Hn as [->| ->]; auto|]. split; [lia|auto].
Qed.

Lemma well_formed_priority_body t s i :
  settled_lane (yellow_duration (system_settings s)) (get_lane i s) ->
  well_formed_lane (yellow_duration (system_settings s)) (priority_body t s i).
Proof.
  intros H. pose proof (settled_well_formed _ _ H) as W.
  unfold priority_body.
  destruct (laneid_eqb i t); destruct (light (get_lane i s)) eqn:L;
    try exact W; try (apply well_formed_yellow; auto).
  - unfold settled_lane in H. rewrite L in H. destruct H as (_ & T).
    unfold well_formed_lane. simpl. rewrite L. split; [auto|]. split; lia.
  - unfold settled_lane in H. rewrite L in H. destruct H as (_ & T).
    destruct (next_state (get_lane i s)) as [[| |]|] eqn:N; try exact W;
      unfold well_formed_lane; simpl; rewrite L; (split; [auto|]); split; lia.
Qed.

Lemma well_formed_evaluate_priority s :
  (forall i, settled_lane (yellow_duration (system_settings s)) (get_lane i s)) ->
  well_formed (evaluate_priority s).
Proof.
  intros H.
  assert (F : forall t, well_formed (force_priority t s)).
  { intros t i. rewrite (proj1 (same_observations_force t s)).
    rewrite force_priority_get. apply well_formed_priority_body, H. }
  assert (W : well_formed s) by (intros i; apply settled_well_formed, H).
  unfold evaluate_priority.
  destruct (emergency_lane s); [apply F|].
  destruct (max_lane s); [apply F|].
  unfold normal_operation.
  destruct (any_yellow s); [exact W|].
  destruct (current_green s) as [cg|].
  - destruct (remaining_time (get_lane cg s) >? 0); [exact W|].
    set (nx := lane_at _). intros i. cbn [system_settings set_lane].
    destruct (laneid_eq_dec nx i) as [<-|N].
    + rewrite get_set_same. apply well_formed_yellow. auto.
    + rewrite get_set_other by assumption.
      destruct (laneid_eq_dec cg i) as [<-|N'].
      * rewrite get_set_same. apply well_formed_yellow. auto.
      * rewrite get_set_other by assumption. apply W.
  - intros i. cbn [system_settings set_lane].
    destruct (laneid_eq_dec lane4 i) as [<-|N].
    + rewrite get_set_same. apply well_formed_yellow. auto.
    + rewrite get_set_other by assumption. apply W.
Qed.

Lemma well_formed_tick s : well_formed s -> well_formed (update_traffic_lights s).
Proof.
  intros W. unfold update_traffic_lights. apply well_formed_evaluate_priority.
  intros i. rewrite (proj1 (same_observations_after_timers s)).
  apply after_timers_settled, W.
Qed.

Lemma well_formed_observe i e c w s : well_formed s -> well_formed (observe i e c w s).
Proof.
  intros W j. unfold observe. cbn [system_settings set_lane].
  destruct (laneid_eq_dec i j) as [<-|N].
  - rewrite get_set_same. apply (W i).
  - rewrite get_set_other by assumption. apply W.
Qed.

Lemma well_formed_update_settings req s :
  well_formed s -> well_formed (fst (update_settings req s)).
Proof.
  intros W. destruct (update_settings_cases req s)
    as [(e & _ & T & Y & _)|(fields & c & y & _ & _ & _ & E)].
  - intros i. rewrite Y.
    replace (get_lane i (fst (update_settings req s))) with (get_lane i s)
      by (destruct i; simpl; now rewrite T).
    apply W.
  - rewrite E. cbn [fst]. intros i. unfold well_formed_lane.
    destruct (laneid_eq_dec i (reset_anchor s)) as [->|N].
    + now rewrite applied_anchor.
    + now rewrite applied_other.
Qed.

Lemma reachable_well_formed s : reachable s -> well_formed s.
Proof.
  induction 1.
  - intros i. now destruct i.
  - now apply well_formed_tick.
  - now apply well_formed_observe.
  - now apply well_formed_update_settings.
Qed.

(** X1 -- After any calls that ran one after another from the initial
    values (ticks, camera writes, configuration requests, none
    overlapping another), each lane is red or green without pending
    state, or yellow with red or green pending; a yellow timer never
    exceeds [yellow_duration] and, when that duration is at least 1, is at
    least 1: a pending state whose timer has run out never outlives the
    tick. *)
Theorem X1_lane_shapes calls i :
  let s := perform_all calls initial_state in
  let l := get_lane i s in
  let Y := yellow_duration (system_settings s) in
  (light l = Red /\ next_state l = None) \/
  (light l = Green /\ next_state l = None) \/
  (light l = Yellow /\
   (next_state l = Some Red \/ next_state l = Some Green) /\
   remaining_time l <= Y /\ (1 <= Y -> 1 <= remaining_time l)).
Proof.
  pose proof (reachable_perform_all calls _ reach_init) as R.
  pose proof (reachable_well_formed _ R i) as W.
  unfold well_formed_lane in W. cbv zeta.
  destruct (light (get_lane i (perform_all calls initial_state))); auto.
Qed.

(** ** Some lane is always on its way to green *)

Lemma heading_after_timers s i :
  well_formed s -> heading (get_lane i s) -> heading (get_lane i (after_timers s)).
Proof.
  intros W H. specialize (W i). unfold well_formed_lane in W.
  destruct (light (get_lane i s)) eqn:L.
  - destruct H as [H|H]; congruence.
  - destruct H as [H|H]; [congruence|]. destruct W as (_ & T & _).
    destruct (Z_le_gt_dec 2 (remaining_time (get_lane i s))) as [Big|Small].
    + destruct (timers_yellow_waiting s i Green _ (conj L (conj H eq_refl)) Big)
        as (_ & N2 & _).
      now right.
    + destruct (timers_yellow_elapsed s i Green _ (conj L (conj H eq_refl))
                                      ltac:(lia)) as (L2 & _).
      now left.
  - destruct (timers_green s i _ (conj L (conj W eq_refl))) as (L2 & _).
    now left.
Qed.

Lemma heading_evaluate_priority s :
  (exists i, heading (get_lane i s)) ->
  exists i, heading (get_lane i (evaluate_priority s)).
Proof.
  intros H.
  assert (F : forall t, heading (get_lane t (force_priority t s))).
  { intros t. rewrite force_priority_get. unfold priority_body, heading.
    rewrite laneid_eqb_refl.
    destruct (light (get_lane t s)) eqn:L; simpl; auto. }
  unfold evaluate_priority.
  destruct (emergency_lane s) as [e|]; [exists e; apply F|].
  destruct (max_lane s) as [m|]; [exists m; apply F|].
  unfold normal_operation.
  destruct (any_yellow s); [exact H|].
  destruct (current_green s) as [cg|].
  - destruct (remaining_time (get_lane cg s) >? 0); [exact H|].
    eexists. rewrite get_set_same. now right.
  - exists lane4. rewrite get_set_same. now right.
Qed.

Lemma reachable_heading s : reachable s -> exists i, heading (get_lane i s).
Proof.
  induction 1 as [|s R [k H]|s i e c w R [k H]|s req R [k H]].
  - exists lane4. now left.
  - unfold update_traffic_lights. apply heading_evaluate_priority.
    exists k. apply heading_after_timers; [now apply reachable_well_formed|exact H].
  - exists k. unfold observe. destruct (laneid_eq_dec i k) as [<-|N].
    + now rewrite get_set_same.
    + now rewrite get_set_other.
  - destruct (update_settings_cases req s)
      as [(e & _ & T & _)|(fields & c & y & _ & _ & _ & E)].
    + exists k.
      replace (get_lane k (fst (update_settings req s))) with (get_lane k s)
        by (destruct k; simpl; now rewrite T).
      exact H.
    + rewrite E. cbn [fst]. exists (reset_anchor s).
      rewrite applied_anchor. now left.
Qed.

(** X2 -- After any calls that ran one after another from the initial
    values (none overlapping another), exactly one lane is green or
    yellow with green pending: run in turn, the calls never leave the
    lanes without a lane on its way to green, nor with two. *)
Theorem X2_exactly_one_heading calls :
  let s := perform_all calls initial_state in
  exists k,
    (light (get_lane k s) = Green \/
     (light (get_lane k s) = Yellow /\ next_state (get_lane k s) = Some Green)) /\
    forall j,
      light (get_lane j s) = Green \/ next_state (get_lane j s) = Some Green ->
      j = k.
Proof.
  cbv zeta. set (s := perform_all calls initial_state).
  assert (R : reachable s) by apply reachable_perform_all, reach_init.
  destruct (reachable_heading s R) as [k H].
  pose proof (reachable_Inv s R) as I.
  exists k. split.
  - destruct H as [H|H]; [now left|right].
    split; [|exact H].
    destruct (light (get_lane k s)) eqn:L; try reflexivity;
      rewrite (inv_pending _ I k) in H by congruence; discriminate H.
  - intros j Hj. apply (inv_single _ I); assumption.
Qed.

(** X17 -- After any calls that ran one after another from the initial
    values (none overlapping another), at most one lane is green. *)
Theorem X17_one_green_in_turn calls :
  (green_count (perform_all calls initial_state) <= 1)%nat.
Proof.
  apply Inv_green_count, reachable_Inv, reachable_perform_all, reach_init.
Qed.

(** ** What a tick and a configuration request leave alone *)

(** X3 -- A tick never changes the settings, nor the emergency flag, the
    vehicle count or the weight of any lane: these are written by the
    cameras and the configuration endpoint only. *)
Theorem X3_tick_keeps_observations s :
  system_settings (update_traffic_lights s) = system_settings s /\
  forall i,
    emergency (get_lane i (update_traffic_lights s)) = emergency (get_lane i s) /\
    weight (get_lane i (update_traffic_lights s)) = weight (get_lane i s) /\
    vehicle_count (get_lane i (update_traffic_lights s))
    = vehicle_count (get_lane i s).
Proof. exact (same_observations_tick s). Qed.

(** X4 -- A configuration request, accepted or not, never changes the
    emergency flag, the vehicle count or the weight of a lane, and never
    changes [weight_threshold]: the threshold cannot be configured. *)
Theorem X4_update_settings_keeps_observations req s :
  weight_threshold (system_settings (fst (update_settings req s)))
  = weight_threshold (system_settings s) /\
  forall i,
    emergency (get_lane i (fst (update_settings req s))) = emergency (get_lane i s) /\
    weight (get_lane i (fst (update_settings req s))) = weight (get_lane i s) /\
    vehicle_count (get_lane i (fst (update_settings req s)))
    = vehicle_count (get_lane i s).
Proof.
  destruct (update_settings_cases req s)
    as [(e & _ & T & _ & W)|(fields & c & y & _ & _ & _ & E)].
  - split; [exact W|]. intros i.
    replace (get_lane i (fst (update_settings req s))) with (get_lane i s)
      by (destruct i; simpl; now rewrite T).
    now repeat split.
  - rewrite E. cbn [fst]. split; [reflexivity|]. intros i.
    destruct (laneid_eq_dec i (reset_anchor s)) as [->|N].
    + rewrite applied_anchor. now repeat split.
    + rewrite applied_other by assumption. now repeat split.
Qed.

(** ** Repeated and empty configuration requests *)

Lemma state_eq s t :
  (forall i, get_lane i s = get_lane i t) ->
  system_settings s = system_settings t -> s = t.
Proof.
  destruct s as [[a b c d] st], t as [[a' b' c' d'] st']; simpl.
  intros H E.
  pose proof (H lane1); pose proof (H lane2);
    pose proof (H lane3); pose proof (H lane4); simpl in *.
  congruence.
Qed.

Lemma dict_get_same_default fields k d :
  dict_get fields k (dict_get fields k d) = dict_get fields k d.
Proof.
  induction fields as [|[k' v] r IH]; simpl; [reflexivity|].
  now destruct (String.eqb k' k).
Qed.

Lemma dict_get_int_default fields k d c :
  py_int (dict_get fields k (JNum d)) = inl c ->
  py_int (dict_get fields k (JNum c)) = inl c.
Proof.
  induction fields as [|[k' v] r IH]; simpl.
  - intros H. reflexivity.
  - destruct (String.eqb k' k); auto.
Qed.

Lemma dict_get_absent fields k d :
  (forall v, ~ In (k, v) fields) -> dict_get fields k d = d.
Proof.
  induction fields as [|[k' v] r IH]; simpl; intros H; [reflexivity|].
  destruct (String.eqb k' k) eqn:E.
  - apply String.eqb_eq in E. subst k'. exfalso. apply (H v). now left.
  - apply IH. intros v' Hv. apply (H v'). now right.
Qed.

Lemma current_green_applied m c y s :
  current_green (applied m c y s) = Some (reset_anchor s).
Proof.
  apply current_green_unique.
  - now rewrite applied_anchor.
  - intros j G. destruct (laneid_eq_dec j (reset_anchor s)) as [->|N]; auto.
    rewrite applied_other in G by assumption. discriminate G.
Qed.

Lemma applied_twice m c y s : applied m c y (applied m c y s) = applied m c y s.
Proof.
  assert (A : reset_anchor (applied m c y s) = reset_anchor s)
    by (unfold reset_anchor at 1; now rewrite current_green_applied).
  apply state_eq; [|reflexivity].
  intros i. destruct (laneid_eq_dec i (reset_anchor s)) as [->|N].
  - rewrite <- A at 1. rewrite !applied_anchor, A, applied_anchor. reflexivity.
  - rewrite (applied_other m c y (applied m c y s)) by (rewrite A; exact N).
    rewrite A, applied_other by assumption. reflexivity.
Qed.

(** X5 -- Sending an accepted configuration request a second time changes
    nothing: it is accepted again and leaves the dictionaries exactly as
    the first time left them. *)
Theorem X5_update_settings_idempotent req s :
  success (snd (update_settings req s)) = true ->
  update_settings req (fst (update_settings req s)) = update_settings req s.
Proof.
  intros OK. destruct (update_settings_cases req s)
    as [(e & R & _)|(fields & c & y & -> & Ec & Ey & E)].
  - rewrite R in OK. discriminate OK.
  - rewrite E. cbn [fst].
    set (m := dict_get fields "mode" (mode (system_settings s))).
    assert (M : mode (system_settings (applied m c y s)) = m) by reflexivity.
    assert (Y : yellow_duration (system_settings (applied m c y s)) = y)
      by reflexivity.
    rewrite (update_settings_object fields (applied m c y s) c y).
    + rewrite M. unfold m at 1. rewrite dict_get_same_default. fold m.
      now rewrite applied_twice.
    + rewrite applied_cycle_duration. now apply dict_get_int_default in Ec.
    + rewrite Y. now apply dict_get_int_default in Ey.
Qed.

Lemma X5_update_settings_idempotent_witness :
  update_settings set_duration_20 (fst (update_settings set_duration_20 dual_yellow))
  = update_settings set_duration_20 dual_yellow.
Proof.
  apply (X5_update_settings_idempotent set_duration_20 dual_yellow).
  reflexivity.
Defined.

Lemma applied_same_settings s :
  applied (mode (system_settings s)) (cycle_duration (system_settings s))
          (yellow_duration (system_settings s)) s
  = reset_timers s.
Proof. destruct s as [td [m c y t]]. reflexivity. Qed.

(** X6 -- A request object that names none of the three settings is
    accepted and changes no setting, yet it still runs the timer reset:
    afterwards no lane is yellow and no lane has a pending state, so a
    hand-off in progress is discarded. *)
Theorem X6_update_without_settings fields s :
  names_no_setting fields ->
  update_settings (Some (JObj fields)) s = (reset_timers s, mkResponse true None) /\
  system_settings (reset_timers s) = system_settings s /\
  forall i,
    light (get_lane i (reset_timers s)) <> Yellow /\
    next_state (get_lane i (reset_timers s)) = None.
Proof.
  intros H.
  assert (A : forall k d, (k = "mode" \/ k = "duration" \/ k = "yellow_duration")%string ->
                          dict_get fields k d = d).
  { intros k d Hk. apply dict_get_absent. intros v Hv.
    destruct (H k v Hv) as (N1 & N2 & N3).
    destruct Hk as [->|[->| ->]]; congruence. }
  split; [|split].
  - rewrite (update_settings_object fields s
               (cycle_duration (system_settings s))
               (yellow_duration (system_settings s))).
    + rewrite A by auto. now rewrite applied_same_settings.
    + now rewrite A by auto.
    + now rewrite A by auto.
  - reflexivity.
  - intros i. rewrite <- applied_same_settings.
    destruct (laneid_eq_dec i (reset_anchor s)) as [->|N].
    + rewrite applied_anchor. split; [discriminate|reflexivity].
    + rewrite applied_other by assumption. split; [discriminate|reflexivity].
Qed.

Lemma X6_update_without_settings_witness :
  update_settings (Some (JObj [])) dual_yellow
  = (reset_timers dual_yellow, mkResponse true None) /\
  light (get_lane lane1 dual_yellow) = Yellow /\
  light (get_lane lane1 (reset_timers dual_yellow)) <> Yellow.
Proof.
  assert (H : names_no_setting []) by (intros k v []).
  destruct (X6_update_without_settings [] dual_yellow H) as (E & _ & L).
  split; [exact E|]. split; [reflexivity|apply L].
Defined.

(** ** Holding the green during an emergency *)

Lemma emergency_hold_step m s g :
  only_emergency m s -> is_green g (get_lane m s) ->
  is_green (if g >? 0 then g - 1 else g) (get_lane m (update_traffic_lights s)).
Proof.
  intros H G. rewrite (emergency_tick m s H), force_priority_get.
  apply timers_green in G. destruct G as (L & N & T).
  unfold priority_body. rewrite laneid_eqb_refl, L. now repeat split.
Qed.

Lemma emergency_hold_run m bs : forall s g,
  only_emergency m s -> Forall (Forall (reports_only m)) bs ->
  is_green g (get_lane m s) -> 0 <= g ->
  is_green (Z.max 0 (g - Z.of_nat (List.length bs))) (get_lane m (run bs s)) /\
  (bs <> [] ->
   forall j, j <> m ->
     light (get_lane j (run bs s)) = Red \/
     (light (get_lane j (run bs s)) = Yellow /\
      next_state (get_lane j (run bs s)) = Some Red)).
Proof.
  induction bs as [|b l IH]; intros s g H F G Hg.
  - rewrite run_nil. cbn [List.length Z.of_nat].
    replace (Z.max 0 (g - 0)) with g by lia. split; [exact G|congruence].
  - apply Forall_cons_iff in F. destruct F as [Fb Fl]. rewrite run_cons.
    pose proof (only_emergency_batch m b s H Fb) as H1.
    assert (G1 : is_green g (get_lane m (apply_batch b s))).
    { revert G. apply apply_batch_shape. unfold is_green.
      intros x x' -> -> ->. auto. }
    pose proof (emergency_hold_step m _ g H1 G1) as G2.
    pose proof (only_emergency_tick m _ H1) as H2.
    destruct (IH _ _ H2 Fl G2 ltac:(destruct (g >? 0) eqn:P; lia)) as [G3 O3].
    split.
    + cbn [List.length].
      replace (Z.max 0 (g - Z.of_nat (S (List.length l))))
        with (Z.max 0 ((if g >? 0 then g - 1 else g) - Z.of_nat (List.length l)));
        [exact G3|].
      destruct (g >? 0) eqn:P; lia.
    + intros _ j Nj. destruct l as [|b' l'].
      * rewrite run_nil. now apply (emergency_others m).
      * apply O3; [discriminate|exact Nj].
Qed.

(** X7 -- A green lane that is the only lane in emergency keeps the green
    for as long as that lasts: after any number of ticks it is green, its
    timer has counted down to 0 and stays there, and after the first tick
    every other lane is red or yellow with red pending. *)
Theorem X7_emergency_holds_green m s batches :
  only_emergency m s ->
  Forall (Forall (reports_only m)) batches ->
  light (get_lane m s) = Green ->
  next_state (get_lane m s) = None ->
  0 <= remaining_time (get_lane m s) ->
  light (get_lane m (run batches s)) = Green /\
  remaining_time (get_lane m (run batches s))
  = Z.max 0 (remaining_time (get_lane m s) - Z.of_nat (List.length batches)) /\
  (batches <> [] ->
   forall j, j <> m ->
     light (get_lane j (run batches s)) = Red \/
     (light (get_lane j (run batches s)) = Yellow /\
      next_state (get_lane j (run batches s)) = Some Red)).
Proof.
  intros H F L N T.
  destruct (emergency_hold_run m batches s _ H F (conj L (conj N eq_refl)) T)
    as [(L' & _ & T') O].
  split; [exact L'|]. split; [exact T'|exact O].
Qed.

Lemma X7_emergency_holds_green_witness :
  light (get_lane lane4 (ticks 40 emergency_on_green)) = Green /\
  remaining_time (get_lane lane4 (ticks 40 emergency_on_green)) = 0.
Proof.
  assert (H : only_emergency lane4 emergency_on_green)
    by (intros i; now destruct i).
  assert (F : Forall (Forall (reports_only lane4)) (repeat [] 40)).
  { apply Forall_forall. intros b Hb. apply repeat_spec in Hb. subst b.
    constructor. }
  destruct (X7_emergency_holds_green lane4 emergency_on_green (repeat [] 40)
              H F eq_refl eq_refl ltac:(vm_compute; discriminate))
    as (L & T & _).
  split; [exact L|exact T].
Defined.

(** ** The order of the rotation *)

(** X8 -- Round robin: with [C >= 1], [Y >= 1], lane [k] at the start of
    its green phase, every other lane red, nothing pending and neither an
    emergency nor a weight above the threshold at any tick, after exactly
    [C + Y] ticks the next lane in the order lane1, lane2, lane3, lane4,
    lane1 is at the start of its green phase and every other lane is
    red. *)
Theorem X8_rotation_order k s batches :
  let C := cycle_duration (system_settings s) in
  let Y := yellow_duration (system_settings s) in
  let thr := weight_threshold (system_settings s) in
  1 <= C -> 1 <= Y ->
  (forall i, emergency (get_lane i s) = false /\ (weight (get_lane i s) <= thr)%Q) ->
  Forall (Forall (calm_observation thr)) batches ->
  light (get_lane k s) = Green ->
  next_state (get_lane k s) = None ->
  remaining_time (get_lane k s) = C ->
  (forall j, j <> k ->
             light (get_lane j s) = Red /\ next_state (get_lane j s) = None) ->
  Z.of_nat (List.length batches) = C + Y ->
  light (get_lane (succ_lane k) (run batches s)) = Green /\
  remaining_time (get_lane (succ_lane k) (run batches s)) = C /\
  forall j, j <> succ_lane k -> light (get_lane j (run batches s)) = Red.
Proof.
  intros C Y thr HC HY Q F L N T R Hlen.
  assert (H : calm C Y thr s) by (repeat split; auto; apply Q).
  assert (G : GreenShape k C s) by (split; [repeat split; auto|exact R]).
  destruct (rotation_leg C Y thr HC HY k batches s H F G Hlen)
    as [[(L' & _ & T') R'] _].
  split; [exact L'|]. split; [exact T'|].
  intros j Nj. apply (R' j Nj).
Qed.

Lemma X8_rotation_order_witness :
  light (get_lane lane2 (ticks 18 lane1_turned_green)) = Green /\
  remaining_time (get_lane lane2 (ticks 18 lane1_turned_green)) = 15 /\
  forall j, j <> lane2 -> light (get_lane j (ticks 18 lane1_turned_green)) = Red.
Proof.
  apply (X8_rotation_order lane1 lane1_turned_green (repeat [] 18)).
  - vm_compute. discriminate.
  - vm_compute. discriminate.
  - intros i. destruct i; (split; [reflexivity|vm_compute; discriminate]).
  - apply Forall_forall. intros b Hb. apply repeat_spec in Hb. subst b.
    constructor.
  - reflexivity.
  - reflexivity.
  - reflexivity.
  - intros j Hj. destruct j; [now contradiction Hj|now split ..].
  - reflexivity.
Defined.

(** ** Weight-based preemption over several ticks *)

Lemma ticks_succ n s : ticks (S n) s = ticks n (update_traffic_lights s).
Proof. unfold ticks. cbn [repeat]. now rewrite run_cons. Qed.

Lemma heaviest_target m s :
  heaviest m s -> update_traffic_lights s = force_priority m (after_timers s).
Proof.
  intros (NE & T & O).
  pose proof (same_observations_after_timers s) as S.
  unfold update_traffic_lights, evaluate_priority.
  rewrite (emergency_lane_same s _ S), (emergency_lane_none s NE).
  rewrite (max_lane_same s _ S).
  pose proof (max_lane_spec s) as P. cbv zeta in P.
  destruct (max_lane s) as [k|].
  - destruct P as (_ & A & _).
    destruct (laneid_eq_dec k m) as [->|N]; [reflexivity|].
    specialize (O k N). specialize (A m). lra.
  - specialize (P m). lra.
Qed.

Lemma heaviest_tick m s : heaviest m s -> heaviest m (update_traffic_lights s).
Proof.
  intros (NE & T & O). destruct (same_observations_tick s) as [S L].
  split; [|split].
  - intros i. rewrite (proj1 (L i)). apply NE.
  - rewrite S, (proj1 (proj2 (L m))). exact T.
  - intros j N. rewrite (proj1 (proj2 (L m))), (proj1 (proj2 (L j))).
    now apply O.
Qed.

Section Forced.
Variable m : LaneId.
Variable s : State.
Hypothesis forced : update_traffic_lights s = force_priority m (after_timers s).

Lemma forced_detected :
  is_red (get_lane m s) ->
  is_yellow Green (yellow_duration (system_settings s))
            (get_lane m (update_traffic_lights s)).
Proof.
  intros R. rewrite forced, force_priority_get.
  apply timers_red in R. destruct R as [L N].
  unfold priority_body. rewrite laneid_eqb_refl, L.
  rewrite (proj1 (same_observations_after_timers s)). now repeat split.
Qed.

Lemma forced_waiting y :
  is_yellow Green y (get_lane m s) -> 2 <= y ->
  is_yellow Green (y - 1) (get_lane m (update_traffic_lights s)).
Proof.
  intros R Hy. rewrite forced, force_priority_get.
  apply timers_yellow_waiting in R; [|exact Hy]. destruct R as (L & N & T).
  unfold priority_body. rewrite laneid_eqb_refl, L. now repeat split.
Qed.

Lemma forced_served y :
  is_yellow Green y (get_lane m s) -> y <= 1 ->
  is_green (cycle_duration (system_settings s))
           (get_lane m (update_traffic_lights s)).
Proof.
  intros R Hy. rewrite forced, force_priority_get.
  apply timers_yellow_elapsed in R; [|exact Hy]. destruct R as (L & N & T).
  unfold priority_body. rewrite laneid_eqb_refl, L.
  repeat split; auto.
Qed.

Lemma forced_others j :
  j <> m ->
  light (get_lane j (update_traffic_lights s)) = Red \/
  (light (get_lane j (update_traffic_lights s)) = Yellow /\
   next_state (get_lane j (update_traffic_lights s)) = Some Red).
Proof.
  intros N. rewrite forced, force_priority_get.
  unfold priority_body. rewrite (laneid_eqb_neq _ _ N).
  destruct (light (get_lane j (after_timers s))) eqn:L; simpl; auto.
  destruct (next_state (get_lane j (after_timers s))) as [[| |]|] eqn:P;
    simpl; auto.
Qed.
End Forced.

Lemma heaviest_countdown m n : forall s y,
  heaviest m s -> is_yellow Green y (get_lane m s) -> Z.of_nat n < y ->
  is_yellow Green (y - Z.of_nat n) (get_lane m (ticks n s)) /\
  heaviest m (ticks n s) /\
  system_settings (ticks n s) = system_settings s.
Proof.
  induction n as [|n IH]; intros s y H R Hy.
  - unfold ticks. cbn [repeat]. rewrite run_nil. cbn [Z.of_nat].
    rewrite Z.sub_0_r. split; [exact R|]. split; [exact H|reflexivity].
  - rewrite ticks_succ.
    pose proof (forced_waiting m s (heaviest_target m s H) y R ltac:(lia)) as R1.
    destruct (IH _ (y - 1) (heaviest_tick m s H) R1 ltac:(lia)) as (R2 & H2 & S2).
    split; [|split; [exact H2|now rewrite S2, tick_settings]].
    replace (y - Z.of_nat (S n)) with (y - 1 - Z.of_nat n) by lia.
    exact R2.
Qed.

(** X9 -- Weight preemption latency: without emergency and without new
    observations, a red lane without pending state whose weight is above
    the threshold and above every other weight is not green during the
    first [Y] ticks and is green, with a full cycle ahead, after exactly
    [Y + 1] ticks ([Y = yellow_duration >= 1]); every other lane is then
    red or yellow with red pending. *)
Theorem X9_weight_latency m s :
  let Y := yellow_duration (system_settings s) in
  let C := cycle_duration (system_settings s) in
  1 <= Y ->
  heaviest m s ->
  light (get_lane m s) = Red ->
  next_state (get_lane m s) = None ->
  (forall n, Z.of_nat n <= Y -> light (get_lane m (ticks n s)) <> Green) /\
  light (get_lane m (ticks (Z.to_nat (Y + 1)) s)) = Green /\
  remaining_time (get_lane m (ticks (Z.to_nat (Y + 1)) s)) = C /\
  forall j, j <> m ->
    light (get_lane j (ticks (Z.to_nat (Y + 1)) s)) = Red \/
    (light (get_lane j (ticks (Z.to_nat (Y + 1)) s)) = Yellow /\
     next_state (get_lane j (ticks (Z.to_nat (Y + 1)) s)) = Some Red).
Proof.
  intros Y C HY H L N.
  pose proof (forced_detected m s (heaviest_target m s H) (conj L N)) as Y1.
  fold Y in Y1.
  pose proof (heaviest_tick m s H) as H1.
  split.
  - intros [|n] Hn.
    + unfold ticks. cbn [repeat]. rewrite run_nil. congruence.
    + rewrite ticks_succ.
      destruct (heaviest_countdown m n _ Y H1 Y1 ltac:(lia)) as ((Ly & _) & _).
      congruence.
  - replace (Z.to_nat (Y + 1)) with (S (S (Z.to_nat (Y - 1)))) by lia.
    rewrite ticks_succ.
    destruct (heaviest_countdown m (Z.to_nat (Y - 1)) _ Y H1 Y1 ltac:(lia))
      as (Y2 & H2 & S2).
    set (s1 := update_traffic_lights s) in *.
    assert (E : ticks (S (Z.to_nat (Y - 1))) s1
                = update_traffic_lights (ticks (Z.to_nat (Y - 1)) s1)).
    { unfold ticks. cbn [repeat].
      rewrite repeat_cons, run_app, run_cons, run_nil. reflexivity. }
    rewrite E. set (s2 := ticks (Z.to_nat (Y - 1)) s1) in *.
    pose proof (heaviest_target m s2 H2) as T2.
    destruct (forced_served m s2 T2 _ Y2 ltac:(lia)) as (Lg & _ & Tg).
    rewrite S2 in Tg. subst s1. rewrite tick_settings in Tg.
    split; [exact Lg|]. split; [exact Tg|].
    intros j Nj. now apply (forced_others m s2 T2).
Qed.

Lemma X9_weight_latency_witness :
  light (get_lane lane3 (ticks 3 heavy_lane3)) <> Green /\
  light (get_lane lane3 (ticks 4 heavy_lane3)) = Green /\
  remaining_time (get_lane lane3 (ticks 4 heavy_lane3)) = 15.
Proof.
  assert (HY : 1 <= yellow_duration (system_settings heavy_lane3))
    by (vm_compute; discriminate).
  assert (H : heaviest lane3 heavy_lane3).
  { split; [intros i; now destruct i|]. split; [reflexivity|].
    intros j Nj. destruct j; try reflexivity. now contradiction Nj. }
  destruct (X9_weight_latency lane3 heavy_lane3 HY H eq_refl eq_refl)
    as (A & B & C & _).
  split; [apply (A 3%nat); vm_compute; discriminate|].
  split; [exact B|exact C].
Defined.

(** ** What a camera frame writes *)

Lemma count_box_counters a b c d e f em class_id :
  count_box (counters a b c d e f, em) class_id
  = (counters (a + is_class 2 class_id) (b + is_class 7 class_id) c d
              (e + is_class 11 class_id) (f + is_class 5 class_id),
     em || (class_id =? 11)).
Proof.
  unfold count_box, coco_classes, class_name_of, is_class.
  destruct (2 =? class_id) eqn:E2.
  { apply Z.eqb_eq in E2. subst class_id. simpl.
    unfold counters. now rewrite !Nat.add_0_r, Nat.add_1_r, orb_false_r. }
  destruct (3 =? class_id) eqn:E3.
  { apply Z.eqb_eq in E3. subst class_id. simpl.
    unfold counters. now rewrite !Nat.add_0_r, orb_false_r. }
  destruct (5 =? class_id) eqn:E5.
  { apply Z.eqb_eq in E5. subst class_id. simpl.
    unfold counters. now rewrite !Nat.add_0_r, Nat.add_1_r, orb_false_r. }
  destruct (7 =? class_id) eqn:E7.
  { apply Z.eqb_eq in E7. subst class_id. simpl.
    unfold counters. now rewrite !Nat.add_0_r, Nat.add_1_r, orb_false_r. }
  destruct (9 =? class_id) eqn:E9.
  { apply Z.eqb_eq in E9. subst class_id. simpl.
    unfold counters. now rewrite !Nat.add_0_r, orb_false_r. }
  destruct (11 =? class_id) eqn:E11.
  { apply Z.eqb_eq in E11. subst class_id. simpl.
    unfold counters. now rewrite !Nat.add_0_r, Nat.add_1_r, orb_true_r. }
  rewrite Z.eqb_sym in E2, E5, E7, E11. rewrite E2, E5, E7, E11. simpl.
  unfold counters. now rewrite !Nat.add_0_r, orb_false_r.
Qed.

Lemma count_occ_step (boxes : list Z) (class_id c : Z) :
  count_occ Z.eq_dec (class_id :: boxes) c
  = (is_class c class_id + count_occ Z.eq_dec boxes c)%nat.
Proof.
  unfold is_class. simpl. destruct (Z.eq_dec class_id c) as [->|N].
  - now rewrite Z.eqb_refl.
  - apply Z.eqb_neq in N. now rewrite N.
Qed.

Lemma count_box_fold boxes : forall a b c d e f em,
  fold_left count_box boxes (counters a b c d e f, em)
  = (counters (a + count_occ Z.eq_dec boxes 2)
              (b + count_occ Z.eq_dec boxes 7)
              c d
              (e + count_occ Z.eq_dec boxes 11)
              (f + count_occ Z.eq_dec boxes 5),
     em || Nat.ltb 0 (count_occ Z.eq_dec boxes 11)).
Proof.
  induction boxes as [|x l IH]; intros a b c d e f em.
  - simpl. now rewrite !Nat.add_0_r, orb_false_r.
  - cbn [fold_left]. rewrite count_box_counters, IH, !count_occ_step.
    f_equal; [now rewrite !Nat.add_assoc|].
    unfold is_class, Nat.ltb. destruct em, (x =? 11); reflexivity.
Qed.

Lemma count_boxes_fold results : forall a b c d e f em,
  fold_left (fun acc boxes => fold_left count_box boxes acc) results
            (counters a b c d e f, em)
  = (counters (a + boxes_of 2 results) (b + boxes_of 7 results) c d
              (e + boxes_of 11 results) (f + boxes_of 5 results),
     em || (0 <? boxes_of 11 results)%nat).
Proof.
  unfold boxes_of.
  induction results as [|r l IH]; intros a b c d e f em.
  - simpl. now rewrite !Nat.add_0_r, orb_false_r.
  - cbn [fold_left List.concat]. rewrite count_box_fold, IH, !count_occ_app.
    f_equal; [now rewrite !Nat.add_assoc|].
    rewrite <- orb_assoc. f_equal. unfold Nat.ltb.
    destruct (count_occ Z.eq_dec r 11), (count_occ Z.eq_dec (List.concat l) 11);
      reflexivity.
Qed.

Lemma count_boxes_spec results :
  count_boxes results
  = (counters (boxes_of 2 results) (boxes_of 7 results) 0 0
              (boxes_of 11 results) (boxes_of 5 results),
     (0 <? boxes_of 11 results)%nat).
Proof.
  unfold count_boxes. change zero_counts with (counters 0 0 0 0 0 0).
  now rewrite count_boxes_fold.
Qed.

Lemma total_count_counters a b c d e f :
  total_count (counters a b c d e f) = (a + b + c + d + e + f)%nat.
Proof. reflexivity. Qed.

Lemma total_weight_counters a b c d e f :
  (total_weight (counters a b c d e f)
   == 1 * inject_Z (Z.of_nat a) + 3 * inject_Z (Z.of_nat b)
      + 2 * inject_Z (Z.of_nat c) + (1 # 2) * inject_Z (Z.of_nat d)
      + 2 * inject_Z (Z.of_nat e) + 3 * inject_Z (Z.of_nat f))%Q.
Proof.
  unfold total_weight, vehicle_weights, counters. simpl. ring.
Qed.

Lemma inject_nat_weights (a b e f : nat) :
  (inject_Z (Z.of_nat (a + 3 * b + 3 * f + 2 * e))
   == 1 * inject_Z (Z.of_nat a) + 3 * inject_Z (Z.of_nat b)
      + 2 * inject_Z (Z.of_nat 0) + (1 # 2) * inject_Z (Z.of_nat 0)
      + 2 * inject_Z (Z.of_nat e) + 3 * inject_Z (Z.of_nat f))%Q.
Proof.
  replace (Z.of_nat (a + 3 * b + 3 * f + 2 * e))
    with (Z.of_nat a + 3 * Z.of_nat b + 3 * Z.of_nat f + 2 * Z.of_nat e)%Z
    by lia.
  rewrite !inject_Z_plus, !inject_Z_mult. simpl. ring.
Qed.

Lemma detect_frame_lane camera_id results s :
  get_lane camera_id (detect_frame camera_id results s)
  = with_observation
      (0 <? boxes_of 11 results)%nat
      (total_count (counters (boxes_of 2 results) (boxes_of 7 results) 0 0
                             (boxes_of 11 results) (boxes_of 5 results)))
      (total_weight (counters (boxes_of 2 results) (boxes_of 7 results) 0 0
                              (boxes_of 11 results) (boxes_of 5 results)))
      (get_lane camera_id s).
Proof.
  unfold detect_frame. rewrite count_boxes_spec. unfold observe.
  now rewrite get_set_same.
Qed.

(** X10 -- The counts a frame writes: the vehicle count is the number of
    boxes of the classes car (2), bus (5), truck (7) and stop sign (11),
    and the weight is cars + 3 trucks + 3 buses + 2 stop signs.  Boxes of
    any other class, motorbikes (3) and traffic lights (9) included, count
    for nothing, and the weights of "van" and "bike" are never used. *)
Theorem X10_frame_counts camera_id results s :
  let l := get_lane camera_id (detect_frame camera_id results s) in
  let cars := boxes_of 2 results in
  let buses := boxes_of 5 results in
  let trucks := boxes_of 7 results in
  let stops := boxes_of 11 results in
  vehicle_count l = (cars + buses + trucks + stops)%nat /\
  (weight l == inject_Z (Z.of_nat (cars + 3 * trucks + 3 * buses + 2 * stops)))%Q.
Proof.
  cbv zeta. rewrite detect_frame_lane. cbn [vehicle_count weight with_observation].
  split.
  - rewrite total_count_counters. lia.
  - now rewrite total_weight_counters, inject_nat_weights.
Qed.

Lemma inject_Z_le_nat (a b : nat) :
  (a <= b)%nat -> (inject_Z (Z.of_nat a) <= inject_Z (Z.of_nat b))%Q.
Proof. intros H. rewrite <- Zle_Qle. lia. Qed.

(** X11 -- A frame raises the emergency flag exactly when it holds a box
    of class stop sign (11); the weight it writes lies between the vehicle
    count and three times the vehicle count, and is at least 2 whenever the
    flag is raised.  The vehicle count never exceeds the number of
    boxes. *)
Theorem X11_frame_emergency camera_id results s :
  let l := get_lane camera_id (detect_frame camera_id results s) in
  (emergency l = true <-> In 11 (List.concat results)) /\
  (inject_Z (Z.of_nat (vehicle_count l)) <= weight l)%Q /\
  (weight l <= inject_Z (Z.of_nat (3 * vehicle_count l)))%Q /\
  (emergency l = true -> (2 <= weight l)%Q) /\
  (vehicle_count l <= List.length (List.concat results))%nat.
Proof.
  destruct (X10_frame_counts camera_id results s) as [V W].
  cbv zeta in *. rewrite W, V.
  assert (E : emergency (get_lane camera_id (detect_frame camera_id results s))
              = (0 <? boxes_of 11 results)%nat)
    by (now rewrite detect_frame_lane).
  rewrite E. split; [|split; [|split; [|split]]].
  - rewrite Nat.ltb_lt. unfold boxes_of. symmetry. apply count_occ_In.
  - apply inject_Z_le_nat. lia.
  - apply inject_Z_le_nat. lia.
  - rewrite Nat.ltb_lt. intros H.
    change 2%Q with (inject_Z (Z.of_nat 2)). apply inject_Z_le_nat. lia.
  - unfold boxes_of.
    assert (B : forall (l : list Z),
               (count_occ Z.eq_dec l 2%Z + count_occ Z.eq_dec l 5%Z
                + count_occ Z.eq_dec l 7%Z + count_occ Z.eq_dec l 11%Z
                <= List.length l)%nat).
    { induction l as [|x l IH]; [simpl; lia|].
      rewrite !count_occ_step. cbn [List.length]. unfold is_class.
      destruct (x =? 2) eqn:E2; destruct (x =? 5) eqn:E5;
        destruct (x =? 7) eqn:E7; destruct (x =? 11) eqn:E11;
        try lia;
        repeat match goal with
               | H : (_ =? _) = true |- _ => apply Z.eqb_eq in H
               end; lia. }
    apply B.
Qed.

(** X12 -- A frame writes to the lane of its camera only, and there only
    the three observed fields: the light, the timer and the pending state
    of every lane, every field of the other lanes and the settings stay as
    they are. *)
Theorem X12_frame_writes_own_lane camera_id results s :
  system_settings (detect_frame camera_id results s) = system_settings s /\
  (forall j, j <> camera_id ->
             get_lane j (detect_frame camera_id results s) = get_lane j s) /\
  forall j,
    light (get_lane j (detect_frame camera_id results s)) = light (get_lane j s) /\
    remaining_time (get_lane j (detect_frame camera_id results s))
    = remaining_time (get_lane j s) /\
    next_state (get_lane j (detect_frame camera_id results s))
    = next_state (get_lane j s).
Proof.
  unfold detect_frame. destruct (count_boxes results) as [counts em].
  unfold observe. split; [reflexivity|]. split.
  - intros j N. now rewrite get_set_other by congruence.
  - intros j. destruct (laneid_eq_dec camera_id j) as [<-|N].
    + now rewrite get_set_same.
    + now rewrite get_set_other.
Qed.

Lemma X12_frame_writes_own_lane_witness :
  get_lane lane4 (detect_frame lane2 sample_frame initial_state)
  = get_lane lane4 initial_state.
Proof.
  apply (X12_frame_writes_own_lane lane2 sample_frame initial_state).
  discriminate.
Defined.

(** ** The actuator *)

Lemma last_sent_app i log ev :
  last_sent i (log ++ ev)
  = match last_sent i ev with
    | Some c => Some c
    | None => last_sent i log
    end.
Proof.
  unfold last_sent. rewrite rev_app_distr.
  induction (rev ev) as [|e r IH]; simpl; [reflexivity|].
  destruct (laneid_eqb (fst e) i); [reflexivity|exact IH].
Qed.

Lemma in_sync_step s0 st log i r :
  in_sync s0 (st, log) -> reports_change st i r ->
  in_sync s0 (set_lane i (fst r) st, log ++ snd r).
Proof.
  intros H R j. specialize (H j). cbn [fst snd] in *.
  rewrite last_sent_app.
  destruct (laneid_eq_dec i j) as [<-|N].
  - rewrite get_set_same. destruct R as [[E L]|E]; rewrite E.
    + cbn. rewrite L. exact H.
    + unfold last_sent. cbn. now rewrite laneid_eqb_refl.
  - rewrite get_set_other by assumption.
    replace (last_sent j (snd r)) with (@None Light); [exact H|].
    destruct R as [[E _]|E]; rewrite E; [reflexivity|].
    unfold last_sent. cbn. now rewrite (laneid_eqb_neq i j N).
Qed.

Lemma in_sync_loop s0 body :
  (forall st i, reports_change st i (body st i)) ->
  forall acc, in_sync s0 acc -> in_sync s0 (lane_loop_log body acc).
Proof.
  intros B. unfold lane_loop_log.
  induction lanes_order as [|i l IH]; intros [st log] H; [exact H|].
  cbn [fold_left]. apply IH.
  pose proof (in_sync_step s0 st log i (body st i) H (B st i)) as S.
  now destruct (body st i).
Qed.

Lemma fst_lane_loop_log body body' :
  (forall st i, fst (body st i) = body' st i) ->
  forall acc, fst (lane_loop_log body acc) = lane_loop body' (fst acc).
Proof.
  intros B. unfold lane_loop_log, lane_loop.
  induction lanes_order as [|i l IH]; intros [st log]; [reflexivity|].
  cbn [fold_left fst]. rewrite <- (B st i).
  destruct (body st i) as [x ev]. now rewrite IH.
Qed.

Lemma fst_transition_step st i : fst (transition_step st i) = transition_body st i.
Proof.
  unfold transition_step, transition_body.
  destruct (remaining_time (get_lane i st) <=? 0); [|reflexivity].
  now destruct (next_state (get_lane i st)) as [[| |]|].
Qed.

Lemma fst_priority_step t st i : fst (priority_step t st i) = priority_body t st i.
Proof.
  unfold priority_step, priority_body.
  destruct (laneid_eqb i t), (light (get_lane i st)); try reflexivity.
  now destruct (next_state (get_lane i st)) as [[| |]|].
Qed.

Lemma fst_normal_operation_log s log :
  fst (normal_operation_log (s, log)) = normal_operation s.
Proof.
  unfold normal_operation_log, normal_operation.
  destruct (any_yellow s); [reflexivity|].
  destruct (current_green s) as [cg|]; [|reflexivity].
  now destruct (remaining_time (get_lane cg s) >? 0).
Qed.

Lemma reports_change_transition st i : reports_change st i (transition_step st i).
Proof.
  unfold reports_change, transition_step.
  destruct (remaining_time (get_lane i st) <=? 0); [|now left].
  destruct (next_state (get_lane i st)) as [[| |]|]; [right .. |left]; auto.
Qed.

Lemma reports_change_priority t st i : reports_change st i (priority_step t st i).
Proof.
  unfold reports_change, priority_step.
  destruct (laneid_eqb i t); destruct (light (get_lane i st)) eqn:L;
    try (right; reflexivity); try (left; split; [reflexivity|]; simpl; congruence).
  destruct (next_state (get_lane i st)) as [[| |]|]; left;
    (split; [reflexivity|]); simpl; congruence.
Qed.

Lemma in_sync_normal s0 acc : in_sync s0 acc -> in_sync s0 (normal_operation_log acc).
Proof.
  destruct acc as [s log]. intros H. unfold normal_operation_log.
  destruct (any_yellow s); [exact H|].
  destruct (current_green s) as [cg|].
  - destruct (remaining_time (get_lane cg s) >? 0); [exact H|].
    set (Y := yellow_duration (system_settings s)).
    set (s1 := set_lane cg _ s).
    set (nx := lane_at _).
    rewrite app_assoc.
    apply (in_sync_step s0 s1 (log ++ [(cg, Yellow)]) nx
             (with_signal Yellow (Some Green) Y (get_lane nx s1), [(nx, Yellow)])).
    + apply (in_sync_step s0 s log cg
               (with_signal Yellow (Some Red) Y (get_lane cg s), [(cg, Yellow)]));
        [exact H|now right].
    + now right.
  - apply (in_sync_step s0 s log lane4
             (with_signal Yellow (Some Green) (yellow_duration (system_settings s))
                          (get_lane lane4 s), [(lane4, Yellow)]));
      [exact H|now right].
Qed.

Lemma decrement_timers_light s i :
  light (get_lane i (decrement_timers s)) = light (get_lane i s).
Proof.
  destruct (decrement_timers_lane s i) as (t & E & _). now rewrite E.
Qed.

(** X13 -- The state component of the tick that records its calls of
    [send_to_arduino] is the tick itself, and the calls keep the actuator
    in step with the lights: after the tick a lane for which something
    was sent shows the light sent last, and a lane for which nothing was
    sent shows the light it showed before the tick. *)
Theorem X13_lights_follow_calls s :
  fst (update_traffic_lights_log s) = update_traffic_lights s /\
  forall i,
    match last_sent i (snd (update_traffic_lights_log s)) with
    | Some c => light (get_lane i (update_traffic_lights s)) = c
    | None => light (get_lane i (update_traffic_lights s)) = light (get_lane i s)
    end.
Proof.
  assert (F : fst (update_traffic_lights_log s) = update_traffic_lights s).
  { unfold update_traffic_lights_log, update_traffic_lights, evaluate_priority,
      evaluate_priority_log, after_timers, handle_transitions.
    pose proof (fst_lane_loop_log transition_step transition_body
                  fst_transition_step (decrement_timers s, [])) as T.
    cbn [fst] in T.
    destruct (lane_loop_log transition_step (decrement_timers s, []))
      as [s2 log2] eqn:E2.
    cbn [fst] in T. subst s2.
    set (s2 := lane_loop transition_body (decrement_timers s)).
    destruct (emergency_lane s2) as [e|].
    - now rewrite (fst_lane_loop_log (priority_step e) (priority_body e)
                     (fst_priority_step e)).
    - destruct (max_lane s2) as [m|].
      + now rewrite (fst_lane_loop_log (priority_step m) (priority_body m)
                       (fst_priority_step m)).
      + apply fst_normal_operation_log. }
  split; [exact F|].
  assert (S : in_sync s (update_traffic_lights_log s)).
  { unfold update_traffic_lights_log.
    assert (S1 : in_sync s (lane_loop_log transition_step (decrement_timers s, []))).
    { apply in_sync_loop; [apply reports_change_transition|].
      intros i. cbn. apply decrement_timers_light. }
    destruct (lane_loop_log transition_step (decrement_timers s, []))
      as [s2 log2].
    unfold evaluate_priority_log.
    destruct (emergency_lane s2) as [e|].
    - apply in_sync_loop; [apply reports_change_priority|exact S1].
    - destruct (max_lane s2) as [m|].
      + apply in_sync_loop; [apply reports_change_priority|exact S1].
      + now apply in_sync_normal. }
  intros i. specialize (S i). now rewrite F in S.
Qed.

Lemma dispatch_working events : forall port,
  is_open port = true -> write_fails port = false ->
  dispatch (Some port) events
  = Some (mkSerial true false (written port ++ map event_message events)).
Proof.
  unfold dispatch.
  induction events as [|e l IH]; intros [o f w] O F; simpl in O, F; subst.
  - simpl. now rewrite app_nil_r.
  - cbn [fold_left send_to_arduino is_open write_fails written map].
    rewrite IH by reflexivity. cbn [written].
    now rewrite <- app_assoc.
Qed.

(** X14 -- On an open port that accepts writes, the calls of a tick put
    one message per call on the line, in the order of the calls and after
    what was written before; and a message determines its lane and its
    light, so the receiver can tell any two different calls apart. *)
Theorem X14_messages port events :
  is_open port = true -> write_fails port = false ->
  dispatch (Some port) events
  = Some (mkSerial true false (written port ++ map event_message events)) /\
  forall e e', event_message e = event_message e' -> e = e'.
Proof.
  intros O F. split; [now apply dispatch_working|].
  intros [i c] [j d]. unfold event_message. cbn [fst snd].
  destruct i, j, c, d; intros H; try reflexivity; discriminate H.
Qed.

Lemma X14_messages_witness :
  dispatch (Some working_port) (snd (update_traffic_lights_log initial_state))
  = Some (mkSerial true false
            [message "4" "yellow"; message "1" "yellow"]).
Proof.
  apply (X14_messages working_port
           (snd (update_traffic_lights_log initial_state)));
    reflexivity.
Defined.

(** X15 -- When fewer than three serial ports are listed at start-up no
    connection is made, whatever the ports are; and without connection,
    or on a port that is closed or refuses writes, every call is dropped
    without a trace: the port is left as it was. *)
Theorem X15_calls_dropped ports open_port port events :
  ((List.length ports < 3)%nat -> connect_arduino ports open_port = None) /\
  dispatch None events = None /\
  (is_open port = false \/ write_fails port = true ->
   dispatch (Some port) events = Some port).
Proof.
  split; [|split].
  - intros H. unfold connect_arduino.
    destruct ports as [|a [|b [|c r]]]; try reflexivity.
    cbn [List.length] in H. lia.
  - unfold dispatch. induction events as [|e l IH]; [reflexivity|exact IH].
  - intros H. unfold dispatch.
    induction events as [|e l IH]; [reflexivity|].
    cbn [fold_left send_to_arduino].
    destruct H as [H|H]; rewrite H.
    + apply IH.
    + destruct (is_open port); apply IH.
Qed.

Lemma X15_calls_dropped_witness :
  connect_arduino ["COM1"; "COM3"]%string (fun _ => Some working_port) = None /\
  dispatch (Some (mkSerial false false []))
           (snd (update_traffic_lights_log initial_state))
  = Some (mkSerial false false []).
Proof.
  destruct (X15_calls_dropped ["COM1"; "COM3"]%string
              (fun _ => Some working_port) (mkSerial false false [])
              (snd (update_traffic_lights_log initial_state)))
    as (A & _ & B).
  split; [apply A; simpl; lia|apply B; now left].
Defined.

(** ** Holding the green by weight *)

Lemma heaviest_hold_step m s g :
  heaviest m s -> is_green g (get_lane m s) ->
  is_green (if g >? 0 then g - 1 else g) (get_lane m (update_traffic_lights s)).
Proof.
  intros H G. rewrite (heaviest_target m s H), force_priority_get.
  apply timers_green in G. destruct G as (L & N & T).
  unfold priority_body. rewrite laneid_eqb_refl, L. now repeat split.
Qed.

Lemma heaviest_hold m n : forall s g,
  heaviest m s -> is_green g (get_lane m s) ->
  exists g', is_green g' (get_lane m (ticks n s)) /\ heaviest m (ticks n s).
Proof.
  induction n as [|n IH]; intros s g H G.
  - exists g. unfold ticks. cbn [repeat]. rewrite run_nil. now split.
  - rewrite ticks_succ.
    apply (IH _ _ (heaviest_tick m s H) (heaviest_hold_step m s g H G)).
Qed.

(** X16 -- Without emergency and without new observations, a green lane
    whose weight is above the threshold and above every other weight
    keeps the green at every later tick, and from the first tick on every
    other lane is red or yellow with red pending: the other lanes wait
    until the weights change. *)
Theorem X16_weight_holds_green m s n :
  heaviest m s ->
  light (get_lane m s) = Green ->
  next_state (get_lane m s) = None ->
  light (get_lane m (ticks n s)) = Green /\
  ((1 <= n)%nat ->
   forall j, j <> m ->
     light (get_lane j (ticks n s)) = Red \/
     (light (get_lane j (ticks n s)) = Yellow /\
      next_state (get_lane j (ticks n s)) = Some Red)).
Proof.
  intros H L N.
  destruct (heaviest_hold m n s _ H (conj L (conj N eq_refl)))
    as (g' & (L' & _) & _).
  split; [exact L'|].
  intros Hn j Nj. destruct n as [|k]; [lia|].
  assert (E : ticks (S k) s = update_traffic_lights (ticks k s)).
  { unfold ticks. cbn [repeat].
    rewrite repeat_cons, run_app, run_cons, run_nil. reflexivity. }
  rewrite E.
  destruct (heaviest_hold m k s _ H (conj L (conj N eq_refl)))
    as (g & _ & Hk).
  now apply (forced_others m (ticks k s) (heaviest_target m _ Hk)).
Qed.

Lemma X16_weight_holds_green_witness :
  light (get_lane lane3 (ticks 50 heavy_green_lane3)) = Green.
Proof.
  apply (X16_weight_holds_green lane3 heavy_green_lane3 50).
  - split; [intros i; now destruct i|]. split; [reflexivity|].
    intros j Nj. destruct j; try reflexivity. now contradiction Nj.
  - reflexivity.
  - reflexivity.
Defined.
